(** * Barber Shop API: booking validation, seeding and the list endpoints

    A shallow embedding of [main.py] and [schemas.py].  Documents are Python
    dicts (finite maps from field names to values), the document store is a
    family of named collections, and every handler runs in a small
    state-and-exception monad over the store.  The store keeps a journal of the
    operations it served, so that statements about which lookups a handler
    issues can be made about the handler itself. *)

From Stdlib Require Import QArith Ascii String Strings.Byte.
From stdpp Require Import gmap strings list fin_maps.

Local Open Scope Z_scope.

(** ** bson.ObjectId

    An [ObjectId] object holds bytes.  The driver generates twelve of them on
    insert.  The constructor applied to a [str] takes any string of 24
    characters that [bytes.fromhex] can read and keeps the bytes read: twelve
    for 24 hexadecimal digits, fewer when the string holds whitespace, which
    [bytes.fromhex] skips between bytes.  Anything else raises [InvalidId].
    [ObjectId.str] is [str(oid)], the lowercase hexadecimal rendering of the
    bytes. *)
Module ObjectId.

(** The twelve bytes of an identifier the driver generates. *)
Record generated : Type := Generated {
  b0 : byte; b1 : byte; b2 : byte; b3 : byte; b4 : byte; b5 : byte;
  b6 : byte; b7 : byte; b8 : byte; b9 : byte; b10 : byte; b11 : byte
}.

Record t : Type := Oid { binary : list byte }.

Definition of_generated (g : generated) : t :=
  Oid [b0 g; b1 g; b2 g; b3 g; b4 g; b5 g; b6 g; b7 g; b8 g; b9 g; b10 g;
       b11 g].

(** One hexadecimal digit, as [bytes.fromhex] reads it: the digits, then the
    letters a to f in either case, by character code. *)
Definition hex_val (c : ascii) : option N :=
  let n := N_of_ascii c in
  (if (48 <=? n) && (n <=? 57) then Some (n - 48)
   else if (97 <=? n) && (n <=? 102) then Some (n - 87)
   else if (65 <=? n) && (n <=? 70) then Some (n - 55)
   else None)%N.

(** One hexadecimal digit, as [binascii.hexlify] writes it (lowercase). *)
Definition hex_digit (n : N) : ascii :=
  (if n <? 10 then ascii_of_N (48 + n) else ascii_of_N (87 + n))%N.

(** ASCII whitespace: space, and tab to carriage return (codes 9 to 13). *)
Definition is_space (c : ascii) : bool :=
  let n := N_of_ascii c in
  ((n =? 32) || ((9 <=? n) && (n <=? 13)))%N.

Fixpoint hexlify (bs : list byte) : string :=
  match bs with
  | [] => ""
  | b :: bs' =>
      let n := Byte.to_N b in
      String (hex_digit (n / 16)) (String (hex_digit (n mod 16)) (hexlify bs'))
  end%N.

(** [bytes.fromhex]: whitespace before a byte and after the last one is
    skipped; the two digits of a byte are adjacent. *)
Fixpoint fromhex (s : string) : option (list byte) :=
  match s with
  | EmptyString => Some []
  | String c1 s1 =>
      if is_space c1 then fromhex s1
      else
        match s1 with
        | String c2 s' =>
            match hex_val c1, hex_val c2, fromhex s' with
            | Some h, Some l, Some bs =>
                match Byte.of_N (16 * h + l) with
                | Some b => Some (b :: bs)
                | None => None
                end
            | _, _, _ => None
            end
        | EmptyString => None
        end
  end.

Definition new (oid : string) : option t :=
  if (String.length oid =? 24)%nat then
    match fromhex oid with
    | Some bs => Some (Oid bs)
    | None => None
    end
  else None.

(** [ObjectId.is_valid(oid)]: the constructor does not raise. *)
Definition is_valid (oid : string) : bool :=
  match new oid with Some _ => true | None => false end.

Definition str (o : t) : string := hexlify (binary o).

#[global] Instance byte_eq_dec : EqDecision byte := Byte.byte_eq_dec.
#[global] Instance eq_dec : EqDecision t.
Proof. solve_decision. Defined.

End ObjectId.

(** ** Values and documents

    A document is a Python [dict] from field names to BSON values.  The value
    kinds are those the three schemas put into the store.  A [float] is
    carried as the rational it denotes (no arithmetic is done on prices). *)
Inductive value : Type :=
  | VNone
  | VStr (s : string)
  | VOid (o : ObjectId.t)
  | VInt (n : Z)
  | VFloat (x : Q)
  | VList (l : list string).

#[global] Instance Q_eq_dec : EqDecision Q.
Proof. solve_decision. Defined.
#[global] Instance value_eq_dec : EqDecision value.
Proof. solve_decision. Defined.

Abbreviation document := (gmap string value).

(** ** Exceptions and results

    [HTTPException] is the only exception the handlers raise on purpose; any
    other exception ([InvalidId], [TypeError], a pydantic [ValidationError],
    [AttributeError]) escapes the handler and is carried by its class name. *)
Inductive exn : Type :=
  | HTTPException (status_code : Z) (detail : string)
  | Error (class_name : string).

Inductive result (A : Type) : Type :=
  | Ok (a : A)
  | Raise (e : exn).
Arguments Ok {A} a.
Arguments Raise {A} e.

#[global] Instance result_ret : MRet result := λ A a, Ok a.
#[global] Instance result_bind : MBind result := λ A B f r,
  match r with
  | Ok a => f a
  | Raise e => Raise e
  end.

(** A list comprehension whose element expression may raise. *)
Fixpoint comprehension {A B : Type} (f : A → result B) (l : list A)
  : result (list B) :=
  match l with
  | [] => Ok []
  | x :: l' =>
      match f x with
      | Ok y =>
          match comprehension f l' with
          | Ok ys => Ok (y :: ys)
          | Raise e => Raise e
          end
      | Raise e => Raise e
      end
  end.

(** ** The document store

    The store is a family of named collections, each a sequence of documents
    in insertion order; a collection that was never written is empty.
    Identifiers are handed out from [oid_source], of which [oid_issued] have
    been used; that the next one is not yet in a collection is an assumption
    on the store, made where a statement needs it.  [journal] lists the
    operations served so far, oldest first. *)
Inductive op : Type :=
  | CountDocuments (collection : string) (query : document)
  | Find (collection : string) (query : document)
  | FindOne (collection : string) (query : document)
  | InsertOne (collection : string) (doc : document).

Record Database : Type := {
  collections : gmap string (list document);
  oid_source : nat → ObjectId.generated;
  oid_issued : nat;
  journal : list op
}.

Definition coll (st : Database) (name : string) : list document :=
  default [] (collections st !! name).

Definition record (o : op) (st : Database) : Database :=
  {| collections := collections st;
     oid_source := oid_source st;
     oid_issued := oid_issued st;
     journal := journal st ++ [o] |}.

(** A query document matches a stored document when every field of the query
    is present in the document with an equal value: the equality filter of
    the adapter contract. *)
Definition matches (q d : document) : Prop :=
  map_Forall (λ k v, d !! k = Some v) q.

#[global] Instance matches_dec q d : Decision (matches q d).
Proof. unfold matches. apply _. Defined.

(** ** The handler monad

    The module-level [db] is [None] when the store is not configured, and the
    handle otherwise.  A computation reads and updates it and either returns
    or raises; what an operation wrote before an exception stays written. *)
Definition M (A : Type) : Type :=
  option Database → result A * option Database.

#[global] Instance M_ret : MRet M := λ A a db, (Ok a, db).
#[global] Instance M_bind : MBind M := λ A B f m db,
  match m db with
  | (Ok a, db') => f a db'
  | (Raise e, db') => (Raise e, db')
  end.

Definition raise {A : Type} (e : exn) : M A := λ db, (Raise e, db).

Definition lift {A : Type} (r : result A) : M A := λ db, (r, db).

(** [db is None] *)
Definition db_is_None : M bool := λ db,
  (Ok (match db with None => true | Some _ => false end), db).

(** An operation on the handle; on [None] the attribute access fails. *)
Definition on_db {A : Type} (f : Database → A * Database) : M A := λ db,
  match db with
  | None => (Raise (Error "AttributeError"), None)
  | Some st => let '(a, st') := f st in (Ok a, Some st')
  end.

(** [db[name].count_documents(query)] *)
Definition count_documents (name : string) (query : document) : M nat :=
  on_db (λ st,
    (length (filter (matches query) (coll st name)),
     record (CountDocuments name query) st)).

(** [db[name].find_one(query)]: the first match, or Python's [None]. *)
Definition find_one (name : string) (query : document)
  : M (option document) :=
  on_db (λ st,
    (head (filter (matches query) (coll st name)),
     record (FindOne name query) st)).

(** [list(db[name].find(query))] *)
Definition find (name : string) (query : document) : M (list document) :=
  on_db (λ st,
    (filter (matches query) (coll st name), record (Find name query) st)).

(** [db[name].insert_one(doc).inserted_id]: the document is stored under the
    next identifier of the source, after the documents already there. *)
Definition insert_one (name : string) (doc : document) : M ObjectId.t :=
  on_db (λ st,
    let oid := ObjectId.of_generated (oid_source st (oid_issued st)) in
    (oid,
     {| collections :=
          <[name := coll st name ++ [<["_id" := VOid oid]> doc]]>
            (collections st);
        oid_source := oid_source st;
        oid_issued := S (oid_issued st);
        journal := journal st ++ [InsertOne name doc] |})).

(** [ObjectId(oid)] inside a handler: [InvalidId] escapes when it raises. *)
Definition ObjectId (oid : string) : M ObjectId.t :=
  match ObjectId.new oid with
  | Some o => mret o
  | None => raise (Error "InvalidId")
  end.

(** ** pydantic models

    [BaseModel] is the interface [create_document] relies on: a validated
    model can be dumped to a dict.  A constructor [new] takes the keyword
    arguments as a dict and raises [ValidationError] when a required field is
    missing, has the wrong type, or breaks a [Field] constraint.  Of the
    conversions of pydantic's lax mode only int-to-float is modelled: a float
    without fractional part or a numeric string given for an int field, and a
    numeric string given for a float field, are refused here where pydantic
    converts them.  A float is carried as the rational it denotes, so an int
    given for a float field is kept exactly. *)
Class BaseModel (A : Type) : Type := model_dump : A → document.

Definition invalid {A : Type} : result A := Raise (Error "ValidationError").

(** Keyword unpacking of a dict: unpacking Python's [None] is a
    [TypeError]. *)
Definition kwargs (d : option document) : result document :=
  match d with
  | Some kw => Ok kw
  | None => Raise (Error "TypeError")
  end.

Definition required_str (kw : document) (k : string) : result string :=
  match kw !! k with
  | Some (VStr s) => Ok s
  | _ => invalid
  end.

Definition optional_str (kw : document) (k : string)
  : result (option string) :=
  match kw !! k with
  | None | Some VNone => Ok None
  | Some (VStr s) => Ok (Some s)
  | _ => invalid
  end.

Definition required_int (kw : document) (k : string) : result Z :=
  match kw !! k with
  | Some (VInt n) => Ok n
  | _ => invalid
  end.

Definition required_float (kw : document) (k : string) : result Q :=
  match kw !! k with
  | Some (VFloat x) => Ok x
  | Some (VInt n) => Ok (inject_Z n)
  | _ => invalid
  end.

Definition required_list (kw : document) (k : string)
  : result (list string) :=
  match kw !! k with
  | Some (VList l) => Ok l
  | _ => invalid
  end.

Definition dump_optional (o : option string) : value :=
  match o with
  | Some s => VStr s
  | None => VNone
  end.

(** [schemas.Service] *)
Module Service.
Record t : Type := Build {
  name : string;
  duration_minutes : Z;
  price : Q;
  description : option string
}.

Definition new (kw : document) : result t :=
  n ← required_str kw "name";
  d ← required_int kw "duration_minutes";
  p ← required_float kw "price";
  desc ← optional_str kw "description";
  if bool_decide (10 ≤ d ≤ 240) && Qle_bool 0 p
  then Ok (Build n d p desc)
  else invalid.

#[global] Instance dump : BaseModel t := λ s,
  {[ "name" := VStr (name s);
     "duration_minutes" := VInt (duration_minutes s);
     "price" := VFloat (price s);
     "description" := dump_optional (description s) ]}.
End Service.

(** [schemas.Barber] *)
Module Barber.
Record t : Type := Build {
  name : string;
  specialties : list string;
  bio : option string
}.

Definition new (kw : document) : result t :=
  n ← required_str kw "name";
  sp ← match kw !! "specialties" with
       | None => Ok []
       | Some (VList l) => Ok l
       | Some _ => invalid
       end;
  b ← optional_str kw "bio";
  Ok (Build n sp b).

#[global] Instance dump : BaseModel t := λ b,
  {[ "name" := VStr (name b);
     "specialties" := VList (specialties b);
     "bio" := dump_optional (bio b) ]}.
End Barber.

(** [schemas.Appointment], which [main.AppointmentCreate] subclasses without
    adding anything. *)
Module Appointment.
Record t : Type := Build {
  customer_name : string;
  customer_phone : string;
  customer_email : option string;
  service_id : string;
  barber_id : string;
  date : string;
  time : string
}.

Definition new (kw : document) : result t :=
  cn ← required_str kw "customer_name";
  cp ← required_str kw "customer_phone";
  ce ← optional_str kw "customer_email";
  sid ← required_str kw "service_id";
  bid ← required_str kw "barber_id";
  d ← required_str kw "date";
  tm ← required_str kw "time";
  Ok (Build cn cp ce sid bid d tm).

#[global] Instance dump : BaseModel t := λ a,
  {[ "customer_name" := VStr (customer_name a);
     "customer_phone" := VStr (customer_phone a);
     "customer_email" := dump_optional (customer_email a);
     "service_id" := VStr (service_id a);
     "barber_id" := VStr (barber_id a);
     "date" := VStr (date a);
     "time" := VStr (time a) ]}.
End Appointment.

Abbreviation AppointmentCreate := Appointment.t.

(** [main.ServiceOut] *)
Module ServiceOut.
Record t : Type := Build {
  id : string;
  name : string;
  duration_minutes : Z;
  price : Q;
  description : option string
}.

Definition new (kw : document) : result t :=
  i ← required_str kw "id";
  n ← required_str kw "name";
  d ← required_int kw "duration_minutes";
  p ← required_float kw "price";
  desc ← optional_str kw "description";
  Ok (Build i n d p desc).
End ServiceOut.

(** [main.BarberOut] *)
Module BarberOut.
Record t : Type := Build {
  id : string;
  name : string;
  specialties : list string;
  bio : option string
}.

Definition new (kw : document) : result t :=
  i ← required_str kw "id";
  n ← required_str kw "name";
  sp ← required_list kw "specialties";
  b ← optional_str kw "bio";
  Ok (Build i n sp b).
End BarberOut.

(** [main.AppointmentOut] *)
Module AppointmentOut.
Record t : Type := Build {
  id : string;
  customer_name : string;
  customer_phone : string;
  customer_email : option string;
  service_id : string;
  barber_id : string;
  date : string;
  time : string
}.

Definition new (kw : document) : result t :=
  i ← required_str kw "id";
  cn ← required_str kw "customer_name";
  cp ← required_str kw "customer_phone";
  ce ← optional_str kw "customer_email";
  sid ← required_str kw "service_id";
  bid ← required_str kw "barber_id";
  d ← required_str kw "date";
  tm ← required_str kw "time";
  Ok (Build i cn cp ce sid bid d tm).
End AppointmentOut.

Section Handlers.

(** Python's [str] on the value kinds that are not identifiers (a float, a
    list, an int, [None]) is left open: every statement below holds whatever
    these render as. *)
Variable str_other : value → string.

Definition py_str (v : value) : string :=
  match v with
  | VStr s => s
  | VOid o => ObjectId.str o
  | _ => str_other v
  end.

(** ** Helpers *)

(** [isinstance(v, ObjectId)] values become their [str]. *)
Definition stringify (v : value) : value :=
  match v with
  | VOid o => VStr (ObjectId.str o)
  | _ => v
  end.

Definition serialize_doc (doc : option document) : option document :=
  match doc with
  | None => None
  | Some doc =>
      if bool_decide (doc = ∅) then Some doc
      else
        let d := doc in
        let d := match d !! "_id" with
                 | Some v => <["id" := VStr (py_str v)]> (delete "_id" d)
                 | None => d
                 end in
        Some (stringify <$> d)
  end.

(** ** Module [database] *)

(** Modelled from the spec: module [database] is imported by [main.py] but is
    not among the sources.  The adapter contract is
    [insert(collection, document) -> id]: the document is the dumped model,
    the id is store-assigned and crosses the boundary as a string. *)
Definition create_document {A : Type} `{BaseModel A}
    (collection_name : string) (data : A) : M string :=
  inserted_id ← insert_one collection_name (model_dump data);
  mret (ObjectId.str inserted_id).

(** Modelled from the spec: the adapter contract is
    [find(collection, filter) -> sequence of documents]; without a filter
    every document of the collection is returned. *)
Definition get_documents (collection_name : string)
    (filter_dict : option document) : M (list document) :=
  find collection_name (default ∅ filter_dict).

(** ** Seed data on startup *)

Definition defaults : list document :=
  [ {[ "name" := VStr "Haircut"; "duration_minutes" := VInt 30;
       "price" := VFloat (25 # 1);
       "description" := VStr "Classic cut and style" ]};
    {[ "name" := VStr "Beard Trim"; "duration_minutes" := VInt 20;
       "price" := VFloat (15 # 1);
       "description" := VStr "Shape and trim" ]};
    {[ "name" := VStr "Haircut + Beard"; "duration_minutes" := VInt 50;
       "price" := VFloat (35 # 1);
       "description" := VStr "Complete grooming" ]};
    {[ "name" := VStr "Buzz Cut"; "duration_minutes" := VInt 20;
       "price" := VFloat (18 # 1);
       "description" := VStr "Clean buzz all around" ]} ].

Definition barbers : list document :=
  [ {[ "name" := VStr "Alex"; "specialties" := VList ["Fade"; "Beard"];
       "bio" := VStr "Detail-oriented with 7 years experience." ]};
    {[ "name" := VStr "Jamie";
       "specialties" := VList ["Classic"; "Scissor Cut"];
       "bio" := VStr "Loves classic looks and great chats." ]};
    {[ "name" := VStr "Riley"; "specialties" := VList ["Buzz"; "Kids"];
       "bio" := VStr "Fast and friendly." ]} ].

(** [for x in l: body(x)] *)
Fixpoint for_each {A : Type} (l : list A) (body : A → M unit) : M unit :=
  match l with
  | [] => mret tt
  | x :: l' => body x ;; for_each l' body
  end.

Definition seed_defaults : M unit :=
  none ← db_is_None;
  if none : bool then mret tt
  else
    n ← count_documents "service" ∅;
    (if bool_decide (n = 0%nat) then
       for_each defaults (λ s,
         model ← lift (Service.new s);
         create_document "service" model ;; mret tt)
     else mret tt) ;;
    n ← count_documents "barber" ∅;
    if bool_decide (n = 0%nat) then
      for_each barbers (λ b,
        model ← lift (Barber.new b);
        create_document "barber" model ;; mret tt)
    else mret tt.

(** ** Routes *)

Definition list_services : M (list ServiceOut.t) :=
  none ← db_is_None;
  docs ← (if negb none : bool then get_documents "service" None else mret []);
  lift (comprehension
          (λ d, kwargs (serialize_doc (Some d)) ≫= ServiceOut.new) docs).

Definition list_barbers : M (list BarberOut.t) :=
  none ← db_is_None;
  docs ← (if negb none : bool then get_documents "barber" None else mret []);
  lift (comprehension
          (λ d, kwargs (serialize_doc (Some d)) ≫= BarberOut.new) docs).

(** [if param:] on an optional string parameter: absent and empty are both
    false. *)
Definition truthy (param : option string) : option string :=
  match param with
  | Some s => if bool_decide (s = "") then None else Some s
  | None => None
  end.

Definition list_appointments (date barber_id : option string)
  : M (list AppointmentOut.t) :=
  none ← db_is_None;
  if none : bool then mret []
  else
    let query : document := ∅ in
    let query := match truthy date with
                 | Some date => <["date" := VStr date]> query
                 | None => query
                 end in
    let query := match truthy barber_id with
                 | Some barber_id => <["barber_id" := VStr barber_id]> query
                 | None => query
                 end in
    docs ← get_documents "appointment" (Some query);
    lift (comprehension
            (λ d, kwargs (serialize_doc (Some d)) ≫= AppointmentOut.new)
            docs).

Definition create_appointment (payload : AppointmentCreate)
  : M AppointmentOut.t :=
  none ← db_is_None;
  if none : bool then raise (HTTPException 500 "Database not available")
  else
    service_exists ←
      (if ObjectId.is_valid (Appointment.service_id payload)
       then oid ← ObjectId (Appointment.service_id payload);
            count_documents "service" {[ "_id" := VOid oid ]}
       else count_documents "service"
              {[ "_id" := VStr (Appointment.service_id payload) ]});
    barber_exists ←
      (if ObjectId.is_valid (Appointment.barber_id payload)
       then oid ← ObjectId (Appointment.barber_id payload);
            count_documents "barber" {[ "_id" := VOid oid ]}
       else count_documents "barber"
              {[ "_id" := VStr (Appointment.barber_id payload) ]});
    if bool_decide (service_exists = 0%nat)
    then raise (HTTPException 400 "Invalid service_id")
    else if bool_decide (barber_exists = 0%nat)
    then raise (HTTPException 400 "Invalid barber_id")
    else
      conflict ←
        count_documents "appointment"
          {[ "barber_id" := VStr (Appointment.barber_id payload);
             "date" := VStr (Appointment.date payload);
             "time" := VStr (Appointment.time payload) ]};
      if bool_decide (0 < conflict)%nat
      then raise (HTTPException 409 "Time slot already booked for this barber")
      else
        inserted_id ← create_document "appointment" payload;
        doc ←
          (if ObjectId.is_valid inserted_id
           then oid ← ObjectId inserted_id;
                find_one "appointment" {[ "_id" := VOid oid ]}
           else find_one "appointment" {[ "_id" := VStr inserted_id ]});
        lift (kwargs (serialize_doc doc) ≫= AppointmentOut.new).

(** ** Vocabulary of the specification *)

(** The two-path interpretation of an id that crosses the boundary as a
    string: the native id when the string is syntactically one, the literal
    string otherwise. *)
Definition parse_id (raw : string) : value :=
  match ObjectId.new raw with
  | Some oid => VOid oid
  | None => VStr raw
  end.

(** Both readings of a raw id: the literal string, and the native id when
    there is one. *)
Definition interpretations (raw : string) : list value :=
  VStr raw :: match ObjectId.new raw with
              | Some oid => [VOid oid]
              | None => []
              end.

(** Some document of the collection carries this [_id]. *)
Definition has_id (st : Database) (name : string) (v : value) : Prop :=
  Exists (λ d : document, d !! "_id" = Some v) (coll st name).

(** Some document of the collection has the raw id, read the two-path way. *)
Definition references (st : Database) (name raw : string) : Prop :=
  has_id st name (parse_id raw).

(** No document of the collection has the raw id under either reading. *)
Definition dangling (st : Database) (name raw : string) : Prop :=
  Forall (λ d : document,
            Forall (λ v, d !! "_id" ≠ Some v) (interpretations raw))
         (coll st name).

(** The document occupies the candidate's slot: barber, date and time are the
    candidate's strings. *)
Definition same_slot (payload : AppointmentCreate) (d : document) : Prop :=
  d !! "barber_id" = Some (VStr (Appointment.barber_id payload))
  ∧ d !! "date" = Some (VStr (Appointment.date payload))
  ∧ d !! "time" = Some (VStr (Appointment.time payload)).

#[global] Instance same_slot_dec payload d : Decision (same_slot payload d).
Proof. unfold same_slot. apply _. Defined.

Definition bookings (st : Database) (payload : AppointmentCreate) : nat :=
  length (filter (same_slot payload) (coll st "appointment")).

(** The slot of a stored appointment, and invariant I3 on a collection. *)
Definition slot (d : document)
  : option value * option value * option value :=
  (d !! "barber_id", d !! "date", d !! "time").

Definition I3 (appointments : list document) : Prop :=
  NoDup (slot <$> appointments).

(** The identifier the store assigns next is not in use in the collection. *)
Definition next_oid (st : Database) : ObjectId.t :=
  ObjectId.of_generated (oid_source st (oid_issued st)).

Definition fresh (st : Database) (name : string) : Prop :=
  Forall (λ d : document, d !! "_id" ≠ Some (VOid (next_oid st)))
         (coll st name).

(** The response record of a stored appointment, and the documents that
    have one. *)
Definition present (d : document) : result AppointmentOut.t :=
  kwargs (serialize_doc (Some d)) ≫= AppointmentOut.new.

Definition presentable (d : document) : Prop :=
  ∃ a, present d = Ok a.

(** The query [list_appointments] builds from its parameters. *)
Definition appointment_query (date barber_id : option string) : document :=
  let query : document := ∅ in
  let query := match truthy date with
               | Some date => <["date" := VStr date]> query
               | None => query
               end in
  match truthy barber_id with
  | Some barber_id => <["barber_id" := VStr barber_id]> query
  | None => query
  end.

(** The record [create_appointment] answers with for a candidate stored under
    [oid]. *)
Definition created (oid : ObjectId.t) (payload : AppointmentCreate)
  : AppointmentOut.t :=
  AppointmentOut.Build (ObjectId.str oid)
    (Appointment.customer_name payload)
    (Appointment.customer_phone payload)
    (Appointment.customer_email payload)
    (Appointment.service_id payload)
    (Appointment.barber_id payload)
    (Appointment.date payload)
    (Appointment.time payload).

(** Requests arriving one after the other. *)
Definition post_all (payloads : list AppointmentCreate)
    (db : option Database) : option Database :=
  foldl (λ db payload, snd (create_appointment payload db)) db payloads.

(** The operations a handler added to the journal. *)
Definition issued (st st' : Database) : list op :=
  drop (length (journal st)) (journal st').

Definition is_barber_lookup (o : op) : Prop :=
  match o with
  | CountDocuments name _ => name = "barber"
  | _ => False
  end.

(** The number of documents of a collection that carry the raw id, read the
    two-path way. *)
Definition matching (st : Database) (name raw : string) : nat :=
  length (filter (matches {[ "_id" := parse_id raw ]}) (coll st name)).

(** The store once both existence lookups have been served. *)
Definition looked_up (payload : AppointmentCreate) (st : Database)
  : Database :=
  record (CountDocuments "barber"
            {[ "_id" := parse_id (Appointment.barber_id payload) ]})
    (record (CountDocuments "service"
               {[ "_id" := parse_id (Appointment.service_id payload) ]}) st).

Definition slot_query (payload : AppointmentCreate) : document :=
  {[ "barber_id" := VStr (Appointment.barber_id payload);
     "date" := VStr (Appointment.date payload);
     "time" := VStr (Appointment.time payload) ]}.

(** The store once the slot lookup has been served as well. *)
Definition slot_checked (payload : AppointmentCreate) (st : Database)
  : Database :=
  record (CountDocuments "appointment" (slot_query payload))
    (looked_up payload st).

(** The accept path of [create_appointment]: insert, re-read, answer. *)
Definition accept (payload : AppointmentCreate) : M AppointmentOut.t :=
  inserted_id ← create_document "appointment" payload;
  doc ←
    (if ObjectId.is_valid inserted_id
     then oid ← ObjectId inserted_id;
          find_one "appointment" {[ "_id" := VOid oid ]}
     else find_one "appointment" {[ "_id" := VStr inserted_id ]});
  lift (kwargs (serialize_doc doc) ≫= AppointmentOut.new).

(** The document stored for a candidate, and the store after the accept
    path has inserted and re-read it. *)
Definition stored_doc (payload : AppointmentCreate) (st : Database)
  : document :=
  <["_id" := VOid (next_oid st)]> (model_dump payload).

Definition stored (payload : AppointmentCreate) (st : Database) : Database :=
  {| collections :=
       <["appointment" := coll st "appointment" ++ [stored_doc payload st]]>
         (collections st);
     oid_source := oid_source st;
     oid_issued := S (oid_issued st);
     journal :=
       (journal st ++ [InsertOne "appointment" (model_dump payload)])
       ++ [FindOne "appointment" {[ "_id" := VOid (next_oid st) ]}] |}.

(** The result is not an [HTTPException]: it is a value, or an exception that
    escaped by accident. *)
Definition not_http {A : Type} (r : result A) : Prop :=
  ∀ status detail, r ≠ Raise (HTTPException status detail).

(** The claim that the barber lookup is skipped once the service lookup has
    failed: both references dangling, the service rejection is reported and
    the call issues no lookup on the barber collection. *)
Definition short_circuits (st : Database) (payload : AppointmentCreate)
  : Prop :=
  ¬ references st "service" (Appointment.service_id payload) →
  ¬ references st "barber" (Appointment.barber_id payload) →
  fst (create_appointment payload (Some st))
  = Raise (HTTPException 400 "Invalid service_id")
  ∧ ∀ st', snd (create_appointment payload (Some st)) = Some st' →
           Forall (λ o, ¬ is_barber_lookup o) (issued st st').

(** The store after [insert_one] has stored a document. *)
Definition inserted (name : string) (doc : document) (st : Database)
  : Database :=
  {| collections :=
       <[name := coll st name ++ [<["_id" := VOid (next_oid st)]> doc]]>
         (collections st);
     oid_source := oid_source st;
     oid_issued := S (oid_issued st);
     journal := journal st ++ [InsertOne name doc] |}.

(** The body of a seeding loop: validate the defaults, insert the model. *)
Definition seed_one {A : Type} `{BaseModel A}
    (new : document → result A) (name : string) (s : document) : M unit :=
  model ← lift (new s);
  create_document name model ;; mret tt.

(** ** Deciding the vocabulary on concrete stores *)

#[global] Instance has_id_dec st name v : Decision (has_id st name v).
Proof. unfold has_id. apply _. Defined.

#[global] Instance references_dec st name raw :
  Decision (references st name raw).
Proof. unfold references. apply _. Defined.

#[global] Instance dangling_dec st name raw : Decision (dangling st name raw).
Proof. unfold dangling. apply _. Defined.

#[global] Instance fresh_dec st name : Decision (fresh st name).
Proof. unfold fresh. apply _. Defined.

#[global] Instance I3_dec appointments : Decision (I3 appointments).
Proof. unfold I3. apply _. Defined.

#[global] Instance presentable_dec d : Decision (presentable d).
Proof.
  unfold presentable. destruct (present d) as [a|e].
  - left. by exists a.
  - right. intros [a Ha]. discriminate.
Defined.

#[global] Instance is_barber_lookup_dec o : Decision (is_barber_lookup o).
Proof. destruct o; apply _. Defined.

(** ** A shop to run the handlers on

    One service and one barber under native ids, a second barber under a
    literal string id, and no appointment yet. *)
Definition sample_generated (n : nat) : ObjectId.generated :=
  ObjectId.Generated Byte.x65 Byte.x4f Byte.x00 Byte.x00 Byte.x00 Byte.x00
    Byte.x00 Byte.x00 Byte.x00 Byte.x00 Byte.x00
    (default Byte.xff (Byte.of_N (N.of_nat n))).

Definition sample_oid (n : nat) : ObjectId.t :=
  ObjectId.of_generated (sample_generated n).

Definition sample_str (v : value) : string :=
  match v with
  | VNone => "None"
  | _ => ""
  end.

Definition empty_shop : Database :=
  {| collections := ∅;
     oid_source := sample_generated;
     oid_issued := 0;
     journal := [] |}.

Definition shop : Database :=
  {| collections :=
       {[ "service" :=
            [ {[ "_id" := VOid (sample_oid 0); "name" := VStr "Haircut";
                 "duration_minutes" := VInt 30; "price" := VFloat (25 # 1);
                 "description" := VStr "Classic cut and style" ]} ];
          "barber" :=
            [ {[ "_id" := VOid (sample_oid 1); "name" := VStr "Alex";
                 "specialties" := VList ["Fade"; "Beard"];
                 "bio" := VNone ]};
              {[ "_id" := VStr "walk-in"; "name" := VStr "Jamie";
                 "specialties" := VList []; "bio" := VNone ]} ] ]};
     oid_source := sample_generated;
     oid_issued := 2;
     journal := [] |}.

Definition booking : AppointmentCreate :=
  Appointment.Build "Ann" "555-0100" None
    "654f00000000000000000000" "654f00000000000000000001"
    "2024-06-01" "14:00".

Definition stranger : AppointmentCreate :=
  Appointment.Build "Bob" "555-0101" None
    "000000000000000000000000" "654f00000000000000000001"
    "2024-06-01" "14:00".

Definition lost : AppointmentCreate :=
  Appointment.Build "Cy" "555-0102" (Some "cy@example.org")
    "no-such-service" "no-such-barber" "2024-06-01" "14:30".

(** The shop once [booking] has been accepted. *)
Definition booked_shop : Database :=
  stored booking (slot_checked booking shop).

(** ** Further vocabulary: serialisation, frames and round trips *)

(** The dict [serialize_doc] works on once [_id] has been popped into [id]. *)
Definition renamed (d : document) : document :=
  match d !! "_id" with
  | Some v => <["id" := VStr (py_str v)]> (delete "_id" d)
  | None => d
  end.

(** Two states of the module-level handle hold the same data: the same
    collections and the same number of identifiers handed out. *)
Definition same_data (db db' : option Database) : Prop :=
  match db, db' with
  | None, None => True
  | Some st, Some st' =>
      collections st = collections st' ∧ oid_issued st = oid_issued st'
  | _, _ => False
  end.

(** The response records of a stored service and of a stored barber. *)
Definition present_service (d : document) : result ServiceOut.t :=
  kwargs (serialize_doc (Some d)) ≫= ServiceOut.new.

Definition present_barber (d : document) : result BarberOut.t :=
  kwargs (serialize_doc (Some d)) ≫= BarberOut.new.

(** The records the list endpoints answer with for a model stored under
    [oid]. *)
Definition service_out (oid : ObjectId.t) (s : Service.t) : ServiceOut.t :=
  ServiceOut.Build (ObjectId.str oid) (Service.name s)
    (Service.duration_minutes s) (Service.price s) (Service.description s).

Definition barber_out (oid : ObjectId.t) (b : Barber.t) : BarberOut.t :=
  BarberOut.Build (ObjectId.str oid) (Barber.name b)
    (Barber.specialties b) (Barber.bio b).

(** One half of [seed_defaults]: count a collection and, when it is empty,
    validate and insert its defaults. *)
Definition seed_collection {A : Type} `{BaseModel A}
    (new : document → result A) (name : string) (docs : list document)
  : M unit :=
  n ← count_documents name ∅;
  if bool_decide (n = 0%nat) then for_each docs (seed_one new name)
  else mret tt.

(** The [Field] constraints of [schemas.Service]. *)
Definition Service_constraints (s : Service.t) : Prop :=
  10 ≤ Service.duration_minutes s ≤ 240 ∧ (0 <= Service.price s)%Q.

(** A store with services but no barber, and a candidate that writes the id
    of the first barber of [shop] in upper-case digits. *)
Definition barberless_shop : Database :=
  {| collections :=
       {[ "service" :=
            [ {[ "_id" := VOid (sample_oid 0); "name" := VStr "Shave";
                 "duration_minutes" := VInt 15; "price" := VFloat (12 # 1);
                 "description" := VNone ]} ] ]};
     oid_source := sample_generated;
     oid_issued := 1;
     journal := [] |}.

Definition respelled : AppointmentCreate :=
  Appointment.Build "Dee" "555-0103" None
    "654f00000000000000000000" "654F00000000000000000001"
    "2024-06-01" "14:00".

Definition later : AppointmentCreate :=
  Appointment.Build "Eve" "555-0104" None
    "654f00000000000000000000" "654f00000000000000000001"
    "2024-06-01" "14:30".

(** A second customer asking for the slot of [booking], a service model, and
    a document that holds both an [_id] and an [id]. *)
Definition rebooking : AppointmentCreate :=
  Appointment.Build "Flo" "555-0105" (Some "flo@example.org")
    "654f00000000000000000000" "654f00000000000000000001"
    "2024-06-01" "14:00".

Definition shave : Service.t :=
  Service.Build "Shave" 15 (12 # 1) None.


Definition tagged : document :=
  {[ "_id" := VOid (sample_oid 7); "id" := VStr "legacy";
     "owner" := VOid (sample_oid 1); "name" := VStr "Haircut" ]}.

(** ** Diagnostics

    [test_database] reads the handle beyond the store operations: its [name]
    attribute and [list_collection_names()].  Both are taken as given.
    [handle_name] is [Ok None] for a handle without the attribute and raises
    when reading it fails; [brief] is the text [str(e)[:50]] of an exception.
    The environment is a map from variable names to values. *)
Section Diagnostics.

Variable handle_name : Database → result (option string).
Variable list_collection_names : Database → result (list string).
Variable brief : exn → string.

Definition test_database (environ : gmap string string)
    (db : option Database) : document :=
  let response : document :=
    {[ "backend" := VStr "✅ Running";
       "database" := VStr "❌ Not Available";
       "database_url" := VNone;
       "database_name" := VNone;
       "connection_status" := VStr "Not Connected";
       "collections" := VList [] ]} in
  let response :=
    match db with
    | Some st =>
        let response := <["database" := VStr "✅ Available"]> response in
        let response :=
          <["database_url" := VStr "✅ Configured"]> response in
        match handle_name st with
        | Ok name =>
            let response :=
              <["database_name" := VStr (default "✅ Connected" name)]>
                response in
            let response :=
              <["connection_status" := VStr "Connected"]> response in
            match list_collection_names st with
            | Ok collections =>
                let response :=
                  <["collections" := VList (take 10 collections)]>
                    response in
                <["database" := VStr "✅ Connected & Working"]> response
            | Raise e =>
                <["database" := VStr ("⚠️  Connected but Error: " +:+ brief e)]> response
            end
        | Raise e => <["database" := VStr ("❌ Error: " +:+ brief e)]> response
        end
    | None => <["database" := VStr "⚠️  Available but not initialized"]> response
    end in
  let response :=
    <["database_url" :=
        VStr (match truthy (environ !! "DATABASE_URL") with
              | Some _ => "✅ Set"
              | None => "❌ Not Set"
              end)]> response in
  <["database_name" :=
      VStr (match truthy (environ !! "DATABASE_NAME") with
            | Some _ => "✅ Set"
            | None => "❌ Not Set"
            end)]> response.

(** The environment variable is set to a non-empty value. *)
Definition is_set (environ : gmap string string) (k : string) : bool :=
  match environ !! k with
  | Some v => negb (String.eqb v "")
  | None => false
  end.

(** The names the handle lists, when both reads of the handle succeed. *)
Definition listed (db : option Database) : list string :=
  match db with
  | Some st =>
      match handle_name st, list_collection_names st with
      | Ok _, Ok names => names
      | _, _ => []
      end
  | None => []
  end.

End Diagnostics.

(** A stored field passes a query parameter of [list_appointments]: the
    parameter is absent or empty, or the field is that string. *)
Definition admits (param : option string) (field : option value) : Prop :=
  match param with
  | Some s => s = "" ∨ field = Some (VStr s)
  | None => True
  end.



(** A service that lasts too short, and one with a negative price. *)
Definition too_short : document :=
  {[ "name" := VStr "Trim"; "duration_minutes" := VInt 5;
     "price" := VFloat (8 # 1) ]}.

(** ** Identifiers and their hexadecimal form *)

Lemma fromhex_hexlify_byte (b : byte) (s : string) :
  ObjectId.fromhex
    (String (ObjectId.hex_digit (Byte.to_N b / 16)%N)
       (String (ObjectId.hex_digit (Byte.to_N b mod 16)%N) s))
  = (b ::.) <$> ObjectId.fromhex s.
Proof.
  change (ObjectId.fromhex (String ?c1 (String ?c2 s)))
    with (if ObjectId.is_space c1
          then ObjectId.fromhex (String c2 s)
          else match ObjectId.hex_val c1, ObjectId.hex_val c2,
                     ObjectId.fromhex s with
               | Some h, Some l, Some bs =>
                   match Byte.of_N (16 * h + l) with
                   | Some b => Some (b :: bs)
                   | None => None
                   end
               | _, _, _ => None
               end).
  destruct (ObjectId.fromhex s); destruct b; reflexivity.
Qed.

Lemma ObjectId_length_str (g : ObjectId.generated) :
  String.length (ObjectId.str (ObjectId.of_generated g)) = 24%nat.
Proof. reflexivity. Qed.

Lemma ObjectId_new_str (g : ObjectId.generated) :
  ObjectId.new (ObjectId.str (ObjectId.of_generated g))
  = Some (ObjectId.of_generated g).
Proof.
  unfold ObjectId.new. rewrite ObjectId_length_str. simpl Nat.eqb. cbv iota.
  destruct g as [a0 a1 a2 a3 a4 a5 a6 a7 a8 a9 a10 a11].
  unfold ObjectId.str, ObjectId.of_generated.
  cbn [ObjectId.binary ObjectId.b0 ObjectId.b1 ObjectId.b2 ObjectId.b3
       ObjectId.b4 ObjectId.b5 ObjectId.b6 ObjectId.b7 ObjectId.b8
       ObjectId.b9 ObjectId.b10 ObjectId.b11 ObjectId.hexlify].
  rewrite !fromhex_hexlify_byte. reflexivity.
Qed.

Lemma ObjectId_is_valid_str (g : ObjectId.generated) :
  ObjectId.is_valid (ObjectId.str (ObjectId.of_generated g)) = true.
Proof. unfold ObjectId.is_valid. rewrite ObjectId_new_str. reflexivity. Qed.

(** A string of 24 characters with whitespace between the bytes is a valid
    id too, of fewer than twelve bytes. *)
Lemma ObjectId_new_skips_whitespace :
  ObjectId.new "65 4f 00 00 00 00 00 00 "
  = Some (ObjectId.Oid [Byte.x65; Byte.x4f; Byte.x00; Byte.x00; Byte.x00;
                        Byte.x00; Byte.x00; Byte.x00])
  ∧ ObjectId.is_valid "65 4f 00 00 00 00 00 00 " = true.
Proof. split; reflexivity. Qed.

(** ** Running the store operations *)

(** One step of a handler: expose the outermost bind, or the returned value. *)
Ltac run_bind := unfold mbind at 1, M_bind at 1.
Ltac run_ret := unfold mret at 1, M_ret at 1.


Lemma coll_record (o : op) (st : Database) (name : string) :
  coll (record o st) name = coll st name.
Proof. reflexivity. Qed.

Lemma matches_singleton (k : string) (v : value) (d : document) :
  matches {[ k := v ]} d ↔ d !! k = Some v.
Proof. unfold matches. by rewrite map_Forall_singleton. Qed.

Lemma matches_empty (d : document) : matches ∅ d.
Proof. unfold matches. apply map_Forall_empty. Qed.

Lemma filter_matches_empty (l : list document) : filter (matches ∅) l = l.
Proof.
  induction l as [|d l IH]; [reflexivity|].
  rewrite filter_cons_True by apply matches_empty. by rewrite IH.
Qed.

Lemma matches_slot_query (payload : AppointmentCreate) (d : document) :
  matches {[ "barber_id" := VStr (Appointment.barber_id payload);
             "date" := VStr (Appointment.date payload);
             "time" := VStr (Appointment.time payload) ]} d
  ↔ same_slot payload d.
Proof.
  unfold matches, same_slot.
  rewrite !map_Forall_insert by done.
  rewrite map_Forall_singleton. tauto.
Qed.

Lemma filter_slot_query (payload : AppointmentCreate) (l : list document) :
  filter (matches {[ "barber_id" := VStr (Appointment.barber_id payload);
                     "date" := VStr (Appointment.date payload);
                     "time" := VStr (Appointment.time payload) ]}) l
  = filter (same_slot payload) l.
Proof. apply list_filter_iff. intros d. apply matches_slot_query. Qed.

Lemma count_by_id (name raw : string) (st : Database) :
  (if ObjectId.is_valid raw
   then oid ← ObjectId raw; count_documents name {[ "_id" := VOid oid ]}
   else count_documents name {[ "_id" := VStr raw ]}) (Some st)
  = (Ok (length (filter (matches {[ "_id" := parse_id raw ]}) (coll st name))),
     Some (record (CountDocuments name {[ "_id" := parse_id raw ]}) st)).
Proof.
  unfold ObjectId.is_valid, ObjectId, parse_id.
  destruct (ObjectId.new raw); reflexivity.
Qed.

Lemma create_appointment_run (payload : AppointmentCreate) (st : Database) :
  create_appointment payload (Some st) =
    if decide (matching st "service" (Appointment.service_id payload) = 0%nat)
    then (Raise (HTTPException 400 "Invalid service_id"),
          Some (looked_up payload st))
    else if decide
              (matching st "barber" (Appointment.barber_id payload) = 0%nat)
    then (Raise (HTTPException 400 "Invalid barber_id"),
          Some (looked_up payload st))
    else if decide (0 < bookings st payload)%nat
    then (Raise (HTTPException 409 "Time slot already booked for this barber"),
          Some (slot_checked payload st))
    else accept payload (Some (slot_checked payload st)).
Proof.
  unfold create_appointment.
  run_bind. cbn [db_is_None].
  run_bind. rewrite count_by_id.
  run_bind. rewrite count_by_id.
  rewrite coll_record.
  fold (matching st "service" (Appointment.service_id payload)).
  fold (matching st "barber" (Appointment.barber_id payload)).
  fold (looked_up payload st).
  case_bool_decide; [by rewrite decide_True|rewrite decide_False by done].
  case_bool_decide; [by rewrite decide_True|rewrite decide_False by done].
  run_bind. cbn [count_documents on_db].
  change (coll (looked_up payload st) "appointment")
    with (coll st "appointment").
  rewrite filter_slot_query.
  fold (bookings st payload). fold (slot_query payload).
  fold (slot_checked payload st).
  case_bool_decide; [by rewrite decide_True|].
  rewrite decide_False by done. unfold accept. reflexivity.
Qed.

Lemma accept_run (payload : AppointmentCreate) (st : Database) :
  accept payload (Some st)
  = (kwargs (serialize_doc
               (head (filter (matches {[ "_id" := VOid (next_oid st) ]})
                        (coll st "appointment" ++ [stored_doc payload st]))))
       ≫= AppointmentOut.new,
     Some (stored payload st)).
Proof.
  unfold accept, create_document.
  run_bind. run_bind.
  cbn [insert_one on_db]. run_ret.
  rewrite ObjectId_is_valid_str.
  run_bind. run_bind.
  unfold ObjectId. rewrite ObjectId_new_str.
  run_ret. fold (next_oid st).
  cbn [find_one on_db]. unfold lift.
  unfold coll at 1. cbn [collections]. rewrite lookup_insert_eq.
  reflexivity.
Qed.

Lemma filter_none {A : Type} (P : A → Prop) `{!∀ x, Decision (P x)}
    (l : list A) :
  Forall (λ x, ¬ P x) l → filter P l = [].
Proof.
  induction 1 as [|x l Hx _ IH]; [reflexivity|].
  by rewrite filter_cons_False.
Qed.

Lemma reread_fresh (payload : AppointmentCreate) (st : Database) :
  fresh st "appointment" →
  head (filter (matches {[ "_id" := VOid (next_oid st) ]})
          (coll st "appointment" ++ [stored_doc payload st]))
  = Some (stored_doc payload st).
Proof.
  intros Hfresh. rewrite filter_app, filter_none.
  - rewrite filter_cons_True; [reflexivity|].
    apply matches_singleton. unfold stored_doc. apply lookup_insert_eq.
  - eapply Forall_impl; [exact Hfresh|].
    intros d Hd Hm. by apply matches_singleton in Hm.
Qed.

Lemma present_stored (payload : AppointmentCreate) (st : Database) :
  kwargs (serialize_doc (Some (stored_doc payload st))) ≫= AppointmentOut.new
  = Ok (created (next_oid st) payload).
Proof.
  unfold stored_doc. generalize (next_oid st) as oid. intros oid.
  destruct payload as [cn cp [ce|] sid bid d tm]; vm_compute; reflexivity.
Qed.

(** ** Counting matches *)

Lemma count_zero {A : Type} (P : A → Prop) `{!∀ x, Decision (P x)}
    (l : list A) :
  length (filter P l) = 0%nat ↔ Forall (λ x, ¬ P x) l.
Proof.
  split.
  - induction l as [|x l IH]; [constructor|].
    rewrite filter_cons. case_decide; [discriminate|].
    intros Hl. constructor; auto.
  - intros Hl. by rewrite filter_none.
Qed.

Lemma count_pos {A : Type} (P : A → Prop) `{!∀ x, Decision (P x)}
    (l : list A) :
  length (filter P l) ≠ 0%nat ↔ Exists P l.
Proof.
  induction l as [|x l IH].
  - rewrite Exists_nil. simpl. split; [intros Hne; by apply Hne|intros []].
  - rewrite filter_cons, Exists_cons. case_decide as Hx; simpl.
    + split; [intros _; by left|intros _; discriminate].
    + rewrite IH. split; [by right|intros [?|?]; done].
Qed.

Lemma matching_pos (st : Database) (name raw : string) :
  matching st name raw ≠ 0%nat ↔ references st name raw.
Proof.
  unfold matching, references, has_id. rewrite count_pos. split; intros Hex;
    (eapply Exists_impl; [exact Hex|]); intros d; apply matches_singleton.
Qed.

Lemma matching_zero (st : Database) (name raw : string) :
  matching st name raw = 0%nat ↔ ¬ references st name raw.
Proof.
  rewrite <- matching_pos. split; [intros Hz Hne; by apply Hne|].
  intros Hno. by apply dec_stable.
Qed.

Lemma parse_id_interpretation (raw : string) :
  parse_id raw ∈ interpretations raw.
Proof.
  unfold parse_id, interpretations.
  destruct (ObjectId.new raw); [right|]; left.
Qed.

Lemma dangling_not_references (st : Database) (name raw : string) :
  dangling st name raw → ¬ references st name raw.
Proof.
  unfold dangling, references, has_id. intros Hall Hex.
  apply Exists_exists in Hex as (d & Hin & Hd).
  rewrite Forall_forall in Hall. specialize (Hall d Hin).
  rewrite Forall_forall in Hall.
  exact (Hall _ (parse_id_interpretation raw) Hd).
Qed.

(** ** Exceptions that are not raised on purpose *)

Lemma not_http_bind {A B : Type} (r : result A) (f : A → result B) :
  not_http r → (∀ a, not_http (f a)) → not_http (r ≫= f).
Proof.
  intros Hr Hf status detail. destruct r as [a|e]; simpl.
  - apply Hf.
  - intros [= ->]. by eapply Hr.
Qed.

Lemma not_http_Ok {A : Type} (a : A) : not_http (Ok a).
Proof. intros status detail. discriminate. Qed.

Lemma not_http_required_str (kw : document) (k : string) :
  not_http (required_str kw k).
Proof.
  intros status detail. unfold required_str, invalid.
  destruct (kw !! k) as [[]|]; discriminate.
Qed.

Lemma not_http_optional_str (kw : document) (k : string) :
  not_http (optional_str kw k).
Proof.
  intros status detail. unfold optional_str, invalid.
  destruct (kw !! k) as [[]|]; discriminate.
Qed.

Lemma not_http_kwargs (d : option document) : not_http (kwargs d).
Proof. intros status detail. destruct d; discriminate. Qed.

Lemma not_http_present (doc : option document) :
  not_http (kwargs (serialize_doc doc) ≫= AppointmentOut.new).
Proof.
  apply not_http_bind; [apply not_http_kwargs|]. intros kw.
  unfold AppointmentOut.new.
  repeat (apply not_http_bind;
          [first [apply not_http_required_str|apply not_http_optional_str]
          |intros ?]).
  apply not_http_Ok.
Qed.

Lemma accept_not_http (payload : AppointmentCreate) (st : Database) :
  not_http (fst (accept payload (Some st))).
Proof. rewrite accept_run. apply not_http_present. Qed.

(** ** Rejections *)

(** C1. A candidate whose service_id matches no Service document, neither as
    a native id nor as a literal string, is rejected with status 400 and
    detail "Invalid service_id", and the call leaves every collection (the
    appointment collection in particular) as it was. *)
Theorem create_appointment_rejects_dangling_service
    (st : Database) (payload : AppointmentCreate) :
  dangling st "service" (Appointment.service_id payload) →
  ∃ st',
    create_appointment payload (Some st)
    = (Raise (HTTPException 400 "Invalid service_id"), Some st')
    ∧ collections st' = collections st
    ∧ coll st' "appointment" = coll st "appointment".
Proof.
  intros Hdangling. exists (looked_up payload st).
  rewrite create_appointment_run, decide_True; [done|].
  by apply matching_zero, dangling_not_references.
Qed.

(** C2. When service_id and barber_id both reference existing documents, the
    call is rejected with status 409 and detail "Time slot already booked for
    this barber" exactly when at least one stored appointment has the
    candidate's barber_id (as the literal string), date and time; on that
    rejection no collection changes. *)
Theorem create_appointment_conflict_iff_slot_taken
    (st : Database) (payload : AppointmentCreate) :
  references st "service" (Appointment.service_id payload) →
  references st "barber" (Appointment.barber_id payload) →
  (fst (create_appointment payload (Some st))
   = Raise (HTTPException 409 "Time slot already booked for this barber")
   ↔ (0 < bookings st payload)%nat)
  ∧ (fst (create_appointment payload (Some st))
     = Raise (HTTPException 409 "Time slot already booked for this barber")
     → ∃ st', snd (create_appointment payload (Some st)) = Some st'
              ∧ collections st' = collections st
              ∧ coll st' "appointment" = coll st "appointment").
Proof.
  intros Hservice Hbarber.
  apply matching_pos in Hservice, Hbarber.
  rewrite create_appointment_run, !decide_False by done.
  destruct (decide (0 < bookings st payload)%nat) as [Htaken|Hfree].
  - split; [done|]. intros _. by exists (slot_checked payload st).
  - split; [split|]; [|lia|]; intros Hr;
      by apply accept_not_http in Hr.
Qed.

(** ** Slot exclusivity *)

Lemma coll_stored (payload : AppointmentCreate) (st : Database) :
  coll (stored payload st) "appointment"
  = coll st "appointment" ++ [stored_doc payload st].
Proof.
  unfold coll at 1. cbn [stored collections]. by rewrite lookup_insert_eq.
Qed.

Lemma create_appointment_appointments
    (st : Database) (payload : AppointmentCreate) :
  ∃ st',
    snd (create_appointment payload (Some st)) = Some st'
    ∧ (coll st' "appointment" = coll st "appointment"
       ∨ (bookings st payload = 0%nat
          ∧ coll st' "appointment"
            = coll st "appointment" ++ [stored_doc payload st])).
Proof.
  rewrite create_appointment_run.
  repeat case_decide; try (eexists; split; [reflexivity|by left]).
  rewrite accept_run. eexists; split; [reflexivity|]. right.
  split; [lia|]. exact (coll_stored payload (slot_checked payload st)).
Qed.

Lemma slot_stored_doc (payload : AppointmentCreate) (st : Database) :
  slot (stored_doc payload st)
  = (Some (VStr (Appointment.barber_id payload)),
     Some (VStr (Appointment.date payload)),
     Some (VStr (Appointment.time payload))).
Proof.
  unfold stored_doc. generalize (next_oid st) as oid. intros oid.
  destruct payload as [cn cp ce sid bid d tm]. reflexivity.
Qed.

Lemma same_slot_iff (payload : AppointmentCreate) (d : document) :
  same_slot payload d
  ↔ slot d = (Some (VStr (Appointment.barber_id payload)),
              Some (VStr (Appointment.date payload)),
              Some (VStr (Appointment.time payload))).
Proof.
  unfold same_slot, slot.
  split; [intros (-> & -> & ->)|intros [= -> -> ->]]; done.
Qed.

Lemma I3_step (st : Database) (payload : AppointmentCreate) :
  I3 (coll st "appointment") →
  ∃ st', snd (create_appointment payload (Some st)) = Some st'
         ∧ I3 (coll st' "appointment").
Proof.
  intros Hinv.
  destruct (create_appointment_appointments st payload)
    as (st' & Hst' & [Hsame|[Hfree Hnew]]); exists st'; (split; [done|]).
  - by rewrite Hsame.
  - rewrite Hnew. unfold I3. rewrite fmap_app. apply NoDup_app.
    split; [exact Hinv|]. split; [|apply NoDup_singleton].
    intros s Hs Hin. apply list_elem_of_singleton in Hin. subst s.
    apply list_elem_of_fmap in Hs as (d & Hslot & Hd).
    apply (count_zero (same_slot payload)) in Hfree.
    rewrite Forall_forall in Hfree. apply (Hfree d Hd).
    apply same_slot_iff. by rewrite <- Hslot, slot_stored_doc.
Qed.

(** C3. When requests arrive one after the other, invariant I3 is preserved:
    if no two stored appointments share a (barber_id, date, time) triple
    before a sequence of [create_appointment] calls, none do after it. *)
Theorem sequential_posts_preserve_I3
    (payloads : list AppointmentCreate) (st : Database) :
  I3 (coll st "appointment") →
  ∃ st', post_all payloads (Some st) = Some st'
         ∧ I3 (coll st' "appointment").
Proof.
  revert st. induction payloads as [|payload payloads IH]; intros st Hinv.
  - by exists st.
  - destruct (I3_step st payload Hinv) as (st1 & Hst1 & Hinv1).
    destruct (IH st1 Hinv1) as (st' & Hst' & Hinv').
    exists st'. split; [|done]. simpl. by rewrite Hst1.
Qed.

(** ** The existence checks *)

Lemma issued_app (st st' : Database) (ops : list op) :
  journal st' = journal st ++ ops → issued st st' = ops.
Proof. unfold issued. intros ->. apply drop_app_length. Qed.

Lemma create_appointment_lookups
    (st : Database) (payload : AppointmentCreate) :
  ∃ st' rest,
    snd (create_appointment payload (Some st)) = Some st'
    ∧ issued st st'
      = CountDocuments "service"
          {[ "_id" := parse_id (Appointment.service_id payload) ]}
        :: CountDocuments "barber"
             {[ "_id" := parse_id (Appointment.barber_id payload) ]}
        :: rest.
Proof.
  rewrite create_appointment_run.
  repeat case_decide; try rewrite accept_run; eexists; eexists;
    (split; [reflexivity|]); apply issued_app; cbn [journal stored
      slot_checked looked_up record]; rewrite <- ?app_assoc; reflexivity.
Qed.

Lemma invalid_service_iff (st : Database) (payload : AppointmentCreate) :
  fst (create_appointment payload (Some st))
  = Raise (HTTPException 400 "Invalid service_id")
  ↔ ¬ references st "service" (Appointment.service_id payload).
Proof.
  rewrite create_appointment_run, <- matching_zero.
  repeat case_decide; split; try done; intros Hr;
    by apply accept_not_http in Hr.
Qed.

Lemma invalid_barber_iff (st : Database) (payload : AppointmentCreate) :
  fst (create_appointment payload (Some st))
  = Raise (HTTPException 400 "Invalid barber_id")
  ↔ references st "service" (Appointment.service_id payload)
    ∧ ¬ references st "barber" (Appointment.barber_id payload).
Proof.
  rewrite create_appointment_run, <- matching_zero, <- matching_pos.
  repeat case_decide; split; try done; try tauto; intros Hr;
    by apply accept_not_http in Hr.
Qed.

Lemma conflict_needs_references
    (st : Database) (payload : AppointmentCreate) :
  fst (create_appointment payload (Some st))
  = Raise (HTTPException 409 "Time slot already booked for this barber") →
  references st "service" (Appointment.service_id payload)
  ∧ references st "barber" (Appointment.barber_id payload).
Proof.
  rewrite create_appointment_run, <- !matching_pos.
  repeat case_decide; done.
Qed.

(** C4. The existence checks are two-path lookups.  A service_id (barber_id)
    that is syntactically a native id is looked up as that native id, any
    other one as the literal string; the rejection "Invalid service_id"
    ("Invalid barber_id", once the service exists) is reported exactly when
    that lookup finds nothing.  In particular the well-shaped id
    "000000000000000000000000" that no Service carries is rejected with
    status 400 and detail "Invalid service_id". *)
Theorem create_appointment_two_path_lookup
    (st : Database) (payload : AppointmentCreate) :
  (∀ oid, ObjectId.new (Appointment.service_id payload) = Some oid →
     ObjectId.is_valid (Appointment.service_id payload) = true
     ∧ (fst (create_appointment payload (Some st))
        = Raise (HTTPException 400 "Invalid service_id")
        ↔ ¬ has_id st "service" (VOid oid)))
  ∧ (ObjectId.is_valid (Appointment.service_id payload) = false →
     fst (create_appointment payload (Some st))
     = Raise (HTTPException 400 "Invalid service_id")
     ↔ ¬ has_id st "service" (VStr (Appointment.service_id payload)))
  ∧ (∀ oid, ObjectId.new (Appointment.barber_id payload) = Some oid →
     ObjectId.is_valid (Appointment.barber_id payload) = true
     ∧ (fst (create_appointment payload (Some st))
        = Raise (HTTPException 400 "Invalid barber_id")
        ↔ references st "service" (Appointment.service_id payload)
          ∧ ¬ has_id st "barber" (VOid oid)))
  ∧ (ObjectId.is_valid (Appointment.barber_id payload) = false →
     fst (create_appointment payload (Some st))
     = Raise (HTTPException 400 "Invalid barber_id")
     ↔ references st "service" (Appointment.service_id payload)
       ∧ ¬ has_id st "barber" (VStr (Appointment.barber_id payload)))
  ∧ (Appointment.service_id payload = "000000000000000000000000" →
     ¬ has_id st "service"
         (VOid (ObjectId.Oid (replicate 12 Byte.x00))) →
     ∃ st',
       create_appointment payload (Some st)
       = (Raise (HTTPException 400 "Invalid service_id"), Some st')
       ∧ coll st' "appointment" = coll st "appointment").
Proof.
  assert (Hvalid : ∀ raw oid, ObjectId.new raw = Some oid →
            ObjectId.is_valid raw = true ∧ parse_id raw = VOid oid).
  { intros raw oid Hnew. unfold ObjectId.is_valid, parse_id.
    by rewrite Hnew. }
  assert (Hliteral : ∀ raw, ObjectId.is_valid raw = false →
            parse_id raw = VStr raw).
  { intros raw. unfold ObjectId.is_valid, parse_id.
    by destruct (ObjectId.new raw). }
  split; [|split; [|split; [|split]]].
  - intros oid Hnew. destruct (Hvalid _ _ Hnew) as [Hv Hp].
    split; [done|]. rewrite invalid_service_iff. unfold references.
    by rewrite Hp.
  - intros Hno. rewrite invalid_service_iff. unfold references.
    by rewrite (Hliteral _ Hno).
  - intros oid Hnew. destruct (Hvalid _ _ Hnew) as [Hv Hp].
    split; [done|]. rewrite invalid_barber_iff.
    unfold references at 2. by rewrite Hp.
  - intros Hno. rewrite invalid_barber_iff. unfold references at 2.
    by rewrite (Hliteral _ Hno).
  - intros Hzero Hnone. exists (looked_up payload st).
    rewrite create_appointment_run, decide_True; [done|].
    apply matching_zero. unfold references, parse_id. by rewrite Hzero.
Qed.

(** C5 (amended). The results of the existence checks are examined in
    order, service first: when both references are dangling only the
    "Invalid service_id" rejection is reported, and the slot-conflict
    rejection is reached only when both references exist.  Both lookups are
    issued, service then barber, before either result is examined. *)
Theorem create_appointment_reports_service_first
    (st : Database) (payload : AppointmentCreate) :
  (∃ st' rest,
     snd (create_appointment payload (Some st)) = Some st'
     ∧ issued st st'
       = CountDocuments "service"
           {[ "_id" := parse_id (Appointment.service_id payload) ]}
         :: CountDocuments "barber"
              {[ "_id" := parse_id (Appointment.barber_id payload) ]}
         :: rest)
  ∧ (¬ references st "service" (Appointment.service_id payload) →
     ¬ references st "barber" (Appointment.barber_id payload) →
     fst (create_appointment payload (Some st))
     = Raise (HTTPException 400 "Invalid service_id"))
  ∧ (fst (create_appointment payload (Some st))
     = Raise (HTTPException 409 "Time slot already booked for this barber") →
     references st "service" (Appointment.service_id payload)
     ∧ references st "barber" (Appointment.barber_id payload)).
Proof.
  split; [apply create_appointment_lookups|]. split.
  - intros Hservice _. by apply invalid_service_iff.
  - apply conflict_needs_references.
Qed.

(** ** The accept path *)

Lemma parse_id_str (st : Database) :
  parse_id (ObjectId.str (next_oid st)) = VOid (next_oid st).
Proof. unfold parse_id, next_oid. by rewrite ObjectId_new_str. Qed.

(** C6. A candidate that passes the three checks is inserted at the end of
    the appointment collection under the id the store assigns; the handler
    then re-reads the collection by that id, which it interprets the two-path
    way, finds the inserted document, and answers with it: the id as a string
    and the candidate's customer, service, barber, date and time fields. *)
Theorem create_appointment_accept_path
    (st : Database) (payload : AppointmentCreate) :
  references st "service" (Appointment.service_id payload) →
  references st "barber" (Appointment.barber_id payload) →
  bookings st payload = 0%nat →
  fresh st "appointment" →
  ∃ st',
    create_appointment payload (Some st)
    = (Ok (created (next_oid st) payload), Some st')
    ∧ coll st' "appointment"
      = coll st "appointment"
        ++ [<["_id" := VOid (next_oid st)]> (model_dump payload)]
    ∧ issued st st'
      = [ CountDocuments "service"
            {[ "_id" := parse_id (Appointment.service_id payload) ]};
          CountDocuments "barber"
            {[ "_id" := parse_id (Appointment.barber_id payload) ]};
          CountDocuments "appointment" (slot_query payload);
          InsertOne "appointment" (model_dump payload);
          FindOne "appointment"
            {[ "_id" := parse_id (ObjectId.str (next_oid st)) ]} ]
    ∧ head (filter (matches
                      {[ "_id" := parse_id (ObjectId.str (next_oid st)) ]})
              (coll st' "appointment"))
      = Some (<["_id" := VOid (next_oid st)]> (model_dump payload))
    ∧ kwargs (serialize_doc
                (Some (<["_id" := VOid (next_oid st)]> (model_dump payload))))
        ≫= AppointmentOut.new
      = Ok (created (next_oid st) payload).
Proof.
  intros Hservice Hbarber Hfree Hfresh.
  apply matching_pos in Hservice, Hbarber.
  exists (stored payload (slot_checked payload st)).
  rewrite create_appointment_run, !decide_False by (done || lia).
  rewrite accept_run, parse_id_str.
  pose proof (reread_fresh payload (slot_checked payload st) Hfresh) as Hread.
  pose proof (present_stored payload (slot_checked payload st)) as Hout.
  rewrite coll_stored.
  repeat split; try done.
  - by rewrite Hread, Hout.
  - apply issued_app. cbn [journal stored slot_checked looked_up record].
    by rewrite <- !app_assoc.
Qed.

(** ** Seeding *)

Lemma create_document_run {A : Type} `{BaseModel A}
    (name : string) (data : A) (st : Database) :
  create_document name data (Some st)
  = (Ok (ObjectId.str (next_oid st)),
     Some (inserted name (model_dump data) st)).
Proof. reflexivity. Qed.

Lemma coll_inserted (name : string) (doc : document) (st : Database) :
  coll (inserted name doc st) name
  = coll st name ++ [<["_id" := VOid (next_oid st)]> doc].
Proof.
  unfold coll at 1. cbn [inserted collections]. by rewrite lookup_insert_eq.
Qed.

Lemma coll_inserted_ne (name other : string) (doc : document)
    (st : Database) :
  other ≠ name → coll (inserted name doc st) other = coll st other.
Proof.
  intros Hne. unfold coll at 1. cbn [inserted collections].
  by rewrite lookup_insert_ne.
Qed.

Lemma seed_loop {A : Type} `{BaseModel A} (new : document → result A)
    (name : string) (docs : list document) (st : Database) :
  Forall (λ d, ∃ model, new d = Ok model) docs →
  ∃ st',
    for_each docs (seed_one new name) (Some st) = (Ok tt, Some st')
    ∧ length (coll st' name) = (length (coll st name) + length docs)%nat
    ∧ ∀ other, other ≠ name → coll st' other = coll st other.
Proof.
  intros Hvalid. revert st.
  induction Hvalid as [|d docs [model Hd] _ IH]; intros st.
  - exists st. repeat split. simpl. lia.
  - destruct (IH (inserted name (model_dump model) st))
      as (st' & Hrun & Hlen & Hother).
    exists st'. split; [|split].
    + cbn [for_each]. run_bind.
      unfold seed_one at 1. run_bind.
      unfold lift. rewrite Hd.
      run_bind. rewrite create_document_run.
      run_ret. exact Hrun.
    + rewrite Hlen, coll_inserted, length_app. simpl. lia.
    + intros other Hne. rewrite Hother by done. by apply coll_inserted_ne.
Qed.

Lemma defaults_valid :
  Forall (λ d, ∃ model, Service.new d = Ok model) defaults.
Proof. repeat constructor; eexists; vm_compute; reflexivity. Qed.

Lemma barbers_valid : Forall (λ d, ∃ model, Barber.new d = Ok model) barbers.
Proof. repeat constructor; eexists; vm_compute; reflexivity. Qed.

Lemma count_all (name : string) (st : Database) :
  count_documents name ∅ (Some st)
  = (Ok (length (coll st name)), Some (record (CountDocuments name ∅) st)).
Proof. cbn [count_documents on_db]. by rewrite filter_matches_empty. Qed.

Lemma seed_defaults_empty (st : Database) :
  coll st "service" = [] → coll st "barber" = [] →
  ∃ st', seed_defaults (Some st) = (Ok tt, Some st')
         ∧ length (coll st' "service") = 4%nat
         ∧ length (coll st' "barber") = 3%nat.
Proof.
  intros Hs Hb.
  destruct (seed_loop Service.new "service" defaults
              (record (CountDocuments "service" ∅) st) defaults_valid)
    as (st1 & Hrun1 & Hlen1 & Hother1).
  destruct (seed_loop Barber.new "barber" barbers
              (record (CountDocuments "barber" ∅) st1) barbers_valid)
    as (st2 & Hrun2 & Hlen2 & Hother2).
  exists st2. split; [|split].
  - unfold seed_defaults. run_bind. cbn [db_is_None].
    run_bind. rewrite count_all, Hs.
    rewrite bool_decide_eq_true_2 by done.
    run_bind.
    change (for_each defaults _) with
      (for_each defaults (seed_one Service.new "service")).
    rewrite Hrun1.
    run_bind. rewrite count_all.
    rewrite (Hother1 "barber") by done. rewrite coll_record, Hb.
    rewrite bool_decide_eq_true_2 by done. exact Hrun2.
  - rewrite (Hother2 "service") by done. rewrite coll_record, Hlen1.
    rewrite coll_record, Hs. reflexivity.
  - rewrite Hlen2, coll_record, (Hother1 "barber") by done.
    rewrite coll_record, Hb. reflexivity.
Qed.

Lemma seed_defaults_nonempty (st : Database) :
  coll st "service" ≠ [] → coll st "barber" ≠ [] →
  seed_defaults (Some st)
  = (Ok tt,
     Some (record (CountDocuments "barber" ∅)
             (record (CountDocuments "service" ∅) st))).
Proof.
  intros Hs Hb.
  unfold seed_defaults. run_bind. cbn [db_is_None].
  run_bind. rewrite count_all.
  rewrite bool_decide_eq_false_2 by (by destruct (coll st "service")).
  run_bind. run_ret.
  run_bind. rewrite count_all, coll_record.
  rewrite bool_decide_eq_false_2 by (by destruct (coll st "barber")).
  reflexivity.
Qed.

(** C7. The seeder is idempotent.  On a store whose service and barber
    collections are empty it leaves exactly 4 Service documents and exactly
    3 Barber documents; run again, it inserts nothing: every collection is as
    the first run left it. *)
Theorem seed_defaults_idempotent (st : Database) :
  coll st "service" = [] → coll st "barber" = [] →
  ∃ st1 st2,
    seed_defaults (Some st) = (Ok tt, Some st1)
    ∧ length (coll st1 "service") = 4%nat
    ∧ length (coll st1 "barber") = 3%nat
    ∧ seed_defaults (Some st1) = (Ok tt, Some st2)
    ∧ collections st2 = collections st1.
Proof.
  intros Hs Hb.
  destruct (seed_defaults_empty st Hs Hb) as (st1 & Hrun & Hlen_s & Hlen_b).
  exists st1, (record (CountDocuments "barber" ∅)
                 (record (CountDocuments "service" ∅) st1)).
  repeat split; try done.
  apply seed_defaults_nonempty.
  - by destruct (coll st1 "service").
  - by destruct (coll st1 "barber").
Qed.

(** ** The list endpoints *)

Lemma list_appointments_run (date barber_id : option string)
    (st : Database) :
  list_appointments date barber_id (Some st)
  = (comprehension present
       (filter (matches (appointment_query date barber_id))
          (coll st "appointment")),
     Some (record (Find "appointment" (appointment_query date barber_id))
             st)).
Proof. reflexivity. Qed.


Lemma comprehension_total {A B : Type} (f : A → result B) (l : list A) :
  Forall (λ x, ∃ y, f x = Ok y) l → ∃ ys, comprehension f l = Ok ys.
Proof.
  induction 1 as [|x l [y Hy] _ [ys IH]]; simpl.
  - by eexists.
  - rewrite Hy, IH. by eexists.
Qed.


Lemma posts_keep_presentable
    (payloads : list AppointmentCreate) (st st' : Database) :
  Forall presentable (coll st "appointment") →
  post_all payloads (Some st) = Some st' →
  Forall presentable (coll st' "appointment").
Proof.
  revert st. induction payloads as [|payload payloads IH]; intros st Hok Hrun.
  - by injection Hrun as <-.
  - destruct (create_appointment_appointments st payload)
      as (st1 & Hst1 & Hcoll).
    simpl in Hrun. rewrite Hst1 in Hrun. apply (IH st1); [|done].
    destruct Hcoll as [->|[_ ->]]; [done|].
    apply Forall_app. split; [done|]. constructor; [|constructor].
    eexists. apply present_stored.
Qed.


(** C9. Without a store handle the three list endpoints answer with an empty
    array, while [create_appointment] fails with status 500 and detail
    "Database not available". *)
Theorem handlers_without_store
    (date barber_id : option string) (payload : AppointmentCreate) :
  list_services None = (Ok [], None)
  ∧ list_barbers None = (Ok [], None)
  ∧ list_appointments date barber_id None = (Ok [], None)
  ∧ create_appointment payload None
    = (Raise (HTTPException 500 "Database not available"), None).
Proof. repeat split. Qed.

(** C10. On [list_appointments] a parameter given as the empty string is
    treated as an absent one: the call builds the same query, returns the
    same result and leaves the same store as the call without it. *)
Theorem list_appointments_empty_param_is_absent
    (date barber_id : option string) (db : option Database) :
  list_appointments (Some "") barber_id db
  = list_appointments None barber_id db
  ∧ list_appointments date (Some "") db = list_appointments date None db
  ∧ appointment_query (Some "") barber_id = appointment_query None barber_id
  ∧ appointment_query date (Some "") = appointment_query date None.
Proof. repeat split. Qed.

(** ** [serialize_doc] *)

Lemma serialize_doc_Some (d : document) :
  serialize_doc (Some d) = Some (stringify <$> renamed d).
Proof.
  unfold serialize_doc, renamed. case_bool_decide as Hempty; [|done].
  subst d. by rewrite lookup_empty, fmap_empty.
Qed.

Lemma renamed_no_id (d : document) : renamed d !! "_id" = None.
Proof.
  unfold renamed. destruct (d !! "_id") as [v|] eqn:Hid; [|done].
  rewrite lookup_insert_ne by done. apply lookup_delete_eq.
Qed.

Lemma stringify_idemp (v : value) : stringify (stringify v) = stringify v.
Proof. by destruct v. Qed.

(** X1. What [serialize_doc] returns for a dict has no [_id] key and no
    ObjectId value under any key. *)
Theorem serialize_doc_hides_native_ids (d : document) :
  ∃ d', serialize_doc (Some d) = Some d'
        ∧ d' !! "_id" = None
        ∧ ∀ k o, d' !! k ≠ Some (VOid o).
Proof.
  eexists. split; [apply serialize_doc_Some|]. split.
  - by rewrite lookup_fmap, renamed_no_id.
  - intros k o. rewrite lookup_fmap.
    destruct (renamed d !! k) as [[]|]; discriminate.
Qed.

(** X2. When the dict has an [_id], the result carries its [str] under [id],
    whatever the dict held under [id] before. *)
Theorem serialize_doc_renames_id (d : document) (v : value) :
  d !! "_id" = Some v →
  ∃ d', serialize_doc (Some d) = Some d'
        ∧ d' !! "id" = Some (VStr (py_str v)).
Proof.
  intros Hid. eexists. split; [apply serialize_doc_Some|].
  unfold renamed. rewrite Hid, lookup_fmap, lookup_insert_eq. reflexivity.
Qed.

(** X3. Every other field is kept, an ObjectId value replaced by its [str]:
    any key but [_id] and [id], and [id] too when the dict has no [_id]. *)
Theorem serialize_doc_keeps_fields (d : document) (k : string) :
  k ≠ "_id" →
  k ≠ "id" ∨ d !! "_id" = None →
  ∃ d', serialize_doc (Some d) = Some d'
        ∧ d' !! k = stringify <$> d !! k.
Proof.
  intros Hk Hid. eexists. split; [apply serialize_doc_Some|].
  rewrite lookup_fmap. f_equal. unfold renamed.
  destruct (d !! "_id") as [v|] eqn:Hv; [|done].
  destruct Hid as [Hne|Hnone]; [|discriminate].
  rewrite lookup_insert_ne by done. by apply lookup_delete_ne.
Qed.

(** X4. [serialize_doc] is idempotent: serialising a serialised document
    changes nothing. *)
Theorem serialize_doc_idempotent (doc : option document) :
  serialize_doc (serialize_doc doc) = serialize_doc doc.
Proof.
  destruct doc as [d|]; [|done].
  rewrite !serialize_doc_Some. f_equal.
  unfold renamed at 1. rewrite lookup_fmap, renamed_no_id. simpl.
  rewrite <- map_fmap_compose. apply map_fmap_ext.
  intros k v _. apply stringify_idemp.
Qed.

(** ** More on [create_appointment] *)

Lemma create_appointment_Ok_inv
    (st st' : Database) (payload : AppointmentCreate)
    (a : AppointmentOut.t) :
  create_appointment payload (Some st) = (Ok a, Some st') →
  references st "service" (Appointment.service_id payload)
  ∧ references st "barber" (Appointment.barber_id payload)
  ∧ bookings st payload = 0%nat
  ∧ st' = stored payload (slot_checked payload st).
Proof.
  rewrite create_appointment_run, <- !matching_pos.
  repeat case_decide; try discriminate.
  rewrite accept_run. intros [= _ <-]. repeat split; (done || lia).
Qed.

Lemma coll_stored_ne (payload : AppointmentCreate) (st : Database)
    (name : string) :
  name ≠ "appointment" → coll (stored payload st) name = coll st name.
Proof.
  intros Hne. unfold coll at 1. cbn [stored collections].
  by rewrite lookup_insert_ne.
Qed.

Lemma same_slot_stored_doc
    (payload other : AppointmentCreate) (st : Database) :
  same_slot other (stored_doc payload st)
  ↔ Appointment.barber_id other = Appointment.barber_id payload
    ∧ Appointment.date other = Appointment.date payload
    ∧ Appointment.time other = Appointment.time payload.
Proof.
  rewrite same_slot_iff, slot_stored_doc.
  split; [intros [= -> -> ->]|intros (-> & -> & ->)]; done.
Qed.

(** X5. With a store handle and an unused next identifier, the call has one
    of four outcomes: the two 400 rejections, the 409 rejection, or the
    created record.  No other exception escapes. *)
Theorem create_appointment_outcomes
    (st : Database) (payload : AppointmentCreate) :
  fresh st "appointment" →
  fst (create_appointment payload (Some st))
  = Raise (HTTPException 400 "Invalid service_id")
  ∨ fst (create_appointment payload (Some st))
    = Raise (HTTPException 400 "Invalid barber_id")
  ∨ fst (create_appointment payload (Some st))
    = Raise (HTTPException 409 "Time slot already booked for this barber")
  ∨ fst (create_appointment payload (Some st))
    = Ok (created (next_oid st) payload).
Proof.
  intros Hfresh. rewrite create_appointment_run.
  repeat case_decide; auto.
  rewrite accept_run.
  rewrite (reread_fresh payload (slot_checked payload st) Hfresh).
  rewrite present_stored. auto.
Qed.

(** X6. A call that ends in an [HTTPException] has written nothing: every
    collection is as before and no identifier was used up. *)
Theorem create_appointment_rejection_writes_nothing
    (st : Database) (payload : AppointmentCreate)
    (status : Z) (detail : string) :
  fst (create_appointment payload (Some st))
  = Raise (HTTPException status detail) →
  ∃ st', snd (create_appointment payload (Some st)) = Some st'
         ∧ collections st' = collections st
         ∧ oid_issued st' = oid_issued st.
Proof.
  rewrite create_appointment_run.
  repeat case_decide; try (intros _; by eexists).
  intros Hr. by apply accept_not_http in Hr.
Qed.

(** X7. Whatever the outcome, the call touches the appointment collection
    only, and there it only appends: the stored appointments are kept, in
    order, followed by at most one new document. *)
Theorem create_appointment_only_appends
    (st : Database) (payload : AppointmentCreate) :
  ∃ st' added,
    snd (create_appointment payload (Some st)) = Some st'
    ∧ delete "appointment" (collections st')
      = delete "appointment" (collections st)
    ∧ coll st' "appointment" = coll st "appointment" ++ added
    ∧ (length added ≤ 1)%nat.
Proof.
  rewrite create_appointment_run.
  repeat case_decide;
    try (eexists; exists []; repeat split;
         [by rewrite app_nil_r|simpl; lia]).
  rewrite accept_run. eexists. exists [stored_doc payload st].
  split; [reflexivity|]. split; [|split].
  - cbn [stored collections]. apply delete_insert_eq.
  - exact (coll_stored payload (slot_checked payload st)).
  - simpl. lia.
Qed.

(** X8. An accepted booking blocks its slot: a later candidate with the same
    barber_id, date and time, whose service exists, is rejected with status
    409 and nothing is written. *)
Theorem accepted_slot_is_blocked
    (st st' : Database) (payload other : AppointmentCreate)
    (a : AppointmentOut.t) :
  create_appointment payload (Some st) = (Ok a, Some st') →
  Appointment.barber_id other = Appointment.barber_id payload →
  Appointment.date other = Appointment.date payload →
  Appointment.time other = Appointment.time payload →
  references st' "service" (Appointment.service_id other) →
  ∃ st'',
    create_appointment other (Some st')
    = (Raise (HTTPException 409 "Time slot already booked for this barber"),
       Some st'')
    ∧ collections st'' = collections st'.
Proof.
  intros Hrun Hb Hd Ht Hservice.
  apply create_appointment_Ok_inv in Hrun as (_ & Hbarber & _ & ->).
  exists (slot_checked other (stored payload (slot_checked payload st))).
  rewrite create_appointment_run.
  rewrite decide_False by by apply matching_pos.
  rewrite decide_False.
  2:{ apply matching_pos. unfold references, has_id.
      rewrite coll_stored_ne by done. rewrite Hb. exact Hbarber. }
  rewrite decide_True; [done|].
  unfold bookings. rewrite coll_stored, filter_app, length_app.
  rewrite filter_cons_True by by apply same_slot_stored_doc.
  simpl. lia.
Qed.

(** X9. A call leaves the number of bookings of every other slot as it was:
    only a candidate with the same barber_id, date and time can be affected
    by it. *)
Theorem create_appointment_leaves_other_slots
    (st : Database) (payload other : AppointmentCreate) :
  ¬ (Appointment.barber_id other = Appointment.barber_id payload
     ∧ Appointment.date other = Appointment.date payload
     ∧ Appointment.time other = Appointment.time payload) →
  ∃ st', snd (create_appointment payload (Some st)) = Some st'
         ∧ bookings st' other = bookings st other.
Proof.
  intros Hdiff.
  destruct (create_appointment_appointments st payload)
    as (st' & Hst' & [Hsame|[_ Hnew]]); exists st'; (split; [done|]);
    unfold bookings.
  - by rewrite Hsame.
  - rewrite Hnew, filter_app, length_app.
    rewrite filter_cons_False by by rewrite same_slot_stored_doc.
    simpl. lia.
Qed.

(** X10. The slot check compares barber_id as written.  After an accepted
    booking, a candidate that writes the barber's id differently, though both
    strings denote the same [_id], is not in conflict with it: with its
    service existing, its own literal slot free beforehand and an unused next
    identifier, it is accepted and stored next to the first booking. *)
Theorem respelled_barber_is_not_in_conflict
    (st st' : Database) (payload other : AppointmentCreate)
    (a : AppointmentOut.t) :
  create_appointment payload (Some st) = (Ok a, Some st') →
  Appointment.barber_id other ≠ Appointment.barber_id payload →
  parse_id (Appointment.barber_id other)
  = parse_id (Appointment.barber_id payload) →
  references st "service" (Appointment.service_id other) →
  bookings st other = 0%nat →
  fresh st' "appointment" →
  ∃ st'',
    create_appointment other (Some st')
    = (Ok (created (next_oid st') other), Some st'')
    ∧ coll st'' "appointment"
      = coll st "appointment"
        ++ [stored_doc payload st; stored_doc other st'].
Proof.
  intros Hrun Hne Hsame Hservice Hfree Hfresh.
  apply create_appointment_Ok_inv in Hrun as (_ & Hbarber & _ & ->).
  set (st' := stored payload (slot_checked payload st)) in *.
  exists (stored other (slot_checked other st')).
  rewrite create_appointment_run.
  rewrite decide_False.
  2:{ apply matching_pos. unfold references, has_id. unfold st'.
      by rewrite coll_stored_ne. }
  rewrite decide_False.
  2:{ apply matching_pos. unfold references, has_id. unfold st'.
      rewrite coll_stored_ne by done. rewrite Hsame. exact Hbarber. }
  rewrite decide_False.
  2:{ unfold bookings, st'. rewrite coll_stored, filter_app, length_app.
      rewrite filter_cons_False by (rewrite same_slot_stored_doc; tauto).
      unfold bookings in Hfree. simpl. change (coll (slot_checked payload st)
        "appointment") with (coll st "appointment"). lia. }
  rewrite accept_run.
  rewrite (reread_fresh other (slot_checked other st') Hfresh).
  rewrite present_stored. split; [reflexivity|].
  rewrite coll_stored. change (coll (slot_checked other st') "appointment")
    with (coll st' "appointment"). unfold st'. rewrite coll_stored.
  by rewrite <- app_assoc.
Qed.

(** ** More on the list endpoints *)

Lemma bind_Ok_inv {A B : Type} (r : result A) (f : A → result B) (b : B) :
  r ≫= f = Ok b → ∃ a, r = Ok a ∧ f a = Ok b.
Proof. destruct r as [a|e]; [|discriminate]. intros Hf. by exists a. Qed.

Lemma required_str_inv (kw : document) (k s : string) :
  required_str kw k = Ok s → kw !! k = Some (VStr s).
Proof.
  unfold required_str, invalid.
  destruct (kw !! k) as [[]|]; try discriminate. by intros [= ->].
Qed.

Lemma AppointmentOut_new_inv (kw : document) (a : AppointmentOut.t) :
  AppointmentOut.new kw = Ok a →
  kw !! "barber_id" = Some (VStr (AppointmentOut.barber_id a))
  ∧ kw !! "date" = Some (VStr (AppointmentOut.date a)).
Proof.
  unfold AppointmentOut.new. intros Hnew.
  apply bind_Ok_inv in Hnew as (i & _ & Hnew).
  apply bind_Ok_inv in Hnew as (cn & _ & Hnew).
  apply bind_Ok_inv in Hnew as (cp & _ & Hnew).
  apply bind_Ok_inv in Hnew as (ce & _ & Hnew).
  apply bind_Ok_inv in Hnew as (sid & _ & Hnew).
  apply bind_Ok_inv in Hnew as (bid & Hbid & Hnew).
  apply bind_Ok_inv in Hnew as (d & Hd & Hnew).
  apply bind_Ok_inv in Hnew as (tm & _ & Hnew).
  injection Hnew as <-. simpl.
  by apply required_str_inv in Hbid, Hd.
Qed.

Lemma present_field (d : document) (a : AppointmentOut.t) :
  present d = Ok a →
  stringify <$> d !! "barber_id" = Some (VStr (AppointmentOut.barber_id a))
  ∧ stringify <$> d !! "date" = Some (VStr (AppointmentOut.date a)).
Proof.
  unfold present. rewrite serialize_doc_Some. simpl. intros Hnew.
  apply AppointmentOut_new_inv in Hnew as [Hb Hd].
  rewrite lookup_fmap in Hb, Hd. unfold renamed in Hb, Hd.
  destruct (d !! "_id") as [v|]; [|done].
  rewrite lookup_insert_ne, lookup_delete_ne in Hb by done.
  by rewrite lookup_insert_ne, lookup_delete_ne in Hd by done.
Qed.

Lemma comprehension_elem {A B : Type} (f : A → result B)
    (l : list A) (ys : list B) (y : B) :
  comprehension f l = Ok ys → y ∈ ys → ∃ x, x ∈ l ∧ f x = Ok y.
Proof.
  revert ys. induction l as [|x l IH]; intros ys Hl Hy; simpl in Hl.
  - injection Hl as <-. by apply elem_of_nil in Hy.
  - destruct (f x) as [b|] eqn:Hx; [|discriminate].
    destruct (comprehension f l) as [bs|]; [|discriminate].
    injection Hl as <-. apply elem_of_cons in Hy as [->|Hy].
    + exists x. split; [left|done].
    + destruct (IH bs eq_refl Hy) as (x' & Hin & Hx').
      exists x'. split; [by right|done].
Qed.

Lemma comprehension_Ok_inv {A B : Type} (f : A → result B)
    (l : list A) (ys : list B) :
  comprehension f l = Ok ys →
  Forall (λ x, ∃ y, f x = Ok y) l ∧ length ys = length l.
Proof.
  revert ys. induction l as [|x l IH]; intros ys Hl; simpl in Hl.
  - by injection Hl as <-.
  - destruct (f x) as [b|] eqn:Hx; [|discriminate].
    destruct (comprehension f l) as [bs|]; [|discriminate].
    injection Hl as <-. destruct (IH bs eq_refl) as [Hall Hlen].
    split; [constructor; [by exists b|done]|]. simpl. by rewrite Hlen.
Qed.

Lemma query_barber_id (date : option string) (b : string) (d : document) :
  b ≠ "" → matches (appointment_query date (Some b)) d →
  d !! "barber_id" = Some (VStr b).
Proof.
  intros Hb. unfold appointment_query, matches.
  change (truthy (Some b)) with (if bool_decide (b = "") then None else Some b).
  rewrite bool_decide_eq_false_2 by done. intros Hm.
  by apply (map_Forall_insert_1_1 (λ k v, d !! k = Some v)) in Hm.
Qed.

Lemma query_date (dt : string) (barber_id : option string) (d : document) :
  dt ≠ "" → matches (appointment_query (Some dt) barber_id) d →
  d !! "date" = Some (VStr dt).
Proof.
  intros Hd. unfold appointment_query, matches.
  change (truthy (Some dt))
    with (if bool_decide (dt = "") then None else Some dt).
  rewrite bool_decide_eq_false_2 by done.
  destruct (truthy barber_id) as [b|]; intros Hm.
  - apply (map_Forall_insert_1_2 (λ k v, d !! k = Some v)) in Hm; [|done].
    by apply (map_Forall_insert_1_1 (λ k v, d !! k = Some v)) in Hm.
  - by apply (map_Forall_insert_1_1 (λ k v, d !! k = Some v)) in Hm.
Qed.

(** X11. The three list endpoints only read: whatever the handle, the
    collections and the number of identifiers handed out are the same after
    the call. *)
Theorem list_endpoints_only_read
    (date barber_id : option string) (db : option Database) :
  same_data db (snd (list_services db))
  ∧ same_data db (snd (list_barbers db))
  ∧ same_data db (snd (list_appointments date barber_id db)).
Proof. destruct db as [st|]; repeat split. Qed.

(** X12. Every record [list_appointments] returns carries the barber_id it
    was asked for, and the date it was asked for, whenever that parameter is
    a non-empty string. *)
Theorem list_appointments_sound
    (st : Database) (date barber_id : option string)
    (l : list AppointmentOut.t) (db' : option Database)
    (a : AppointmentOut.t) :
  list_appointments date barber_id (Some st) = (Ok l, db') →
  a ∈ l →
  (∀ b, barber_id = Some b → b ≠ "" → AppointmentOut.barber_id a = b)
  ∧ (∀ d, date = Some d → d ≠ "" → AppointmentOut.date a = d).
Proof.
  rewrite list_appointments_run. intros [= Hl _] Ha.
  destruct (comprehension_elem _ _ _ _ Hl Ha) as (doc & Hdoc & Hpresent).
  apply list_elem_of_filter in Hdoc as [Hmatch _].
  apply present_field in Hpresent as [Hb Hd].
  split.
  - intros b -> Hne. rewrite (query_barber_id _ _ _ Hne Hmatch) in Hb.
    by injection Hb.
  - intros d -> Hne. rewrite (query_date _ _ _ Hne Hmatch) in Hd.
    by injection Hd.
Qed.

(** X13. [list_appointments] succeeds exactly when every stored appointment
    that matches the query serialises to a response record; one that does not
    makes the whole call fail.  When it succeeds it returns one record per
    matching document. *)
Theorem list_appointments_succeeds_iff
    (st : Database) (date barber_id : option string) :
  ((∃ l, fst (list_appointments date barber_id (Some st)) = Ok l)
   ↔ Forall presentable
       (filter (matches (appointment_query date barber_id))
          (coll st "appointment")))
  ∧ ∀ l, fst (list_appointments date barber_id (Some st)) = Ok l →
         length l
         = length (filter (matches (appointment_query date barber_id))
                     (coll st "appointment")).
Proof.
  rewrite list_appointments_run. cbn [fst]. split; [split|].
  - intros [l Hl]. by apply comprehension_Ok_inv in Hl as [Hall _].
  - apply comprehension_total.
  - intros l Hl. by apply comprehension_Ok_inv in Hl as [_ Hlen].
Qed.

Lemma present_service_stored (s : Service.t) (oid : ObjectId.t) :
  present_service (<["_id" := VOid oid]> (model_dump s))
  = Ok (service_out oid s).
Proof.
  destruct s as [n d p [desc|]]; vm_compute; reflexivity.
Qed.

Lemma present_barber_stored (b : Barber.t) (oid : ObjectId.t) :
  present_barber (<["_id" := VOid oid]> (model_dump b))
  = Ok (barber_out oid b).
Proof.
  destruct b as [n sp [bio|]]; vm_compute; reflexivity.
Qed.



Lemma comprehension_complete {A B : Type} (f : A → result B)
    (l : list A) (ys : list B) (x : A) (y : B) :
  comprehension f l = Ok ys → x ∈ l → f x = Ok y → y ∈ ys.
Proof.
  revert ys. induction l as [|z l IH]; intros ys Hl Hx Hy; simpl in Hl.
  - by apply elem_of_nil in Hx.
  - destruct (f z) as [b|] eqn:Hz; [|discriminate].
    destruct (comprehension f l) as [bs|]; [|discriminate].
    injection Hl as <-. apply elem_of_cons in Hx as [->|Hx].
    + rewrite Hy in Hz. injection Hz as ->. left.
    + right. by apply (IH bs).
Qed.

Lemma admitted_matches (date barber_id : option string) (d : document) :
  admits date (d !! "date") → admits barber_id (d !! "barber_id") →
  matches (appointment_query date barber_id) d.
Proof.
  unfold admits, appointment_query, truthy, matches. intros Hd Hb.
  destruct date as [dt|], barber_id as [b|]; repeat case_bool_decide;
    repeat (apply map_Forall_insert_2;
            [first [by destruct Hb|by destruct Hd]|]);
    apply map_Forall_empty.
Qed.

(** X24. [list_appointments] leaves out no appointment it was asked for: when
    the call succeeds, every stored appointment whose date and barber_id pass
    the parameters (an absent or empty parameter passes everything) has its
    record in the answer. *)
Theorem list_appointments_complete
    (st : Database) (date barber_id : option string)
    (l : list AppointmentOut.t) (db' : option Database)
    (d : document) (a : AppointmentOut.t) :
  list_appointments date barber_id (Some st) = (Ok l, db') →
  d ∈ coll st "appointment" →
  admits date (d !! "date") →
  admits barber_id (d !! "barber_id") →
  present d = Ok a →
  a ∈ l.
Proof.
  rewrite list_appointments_run. intros [= Hl _] Hin Hd Hb Ha.
  eapply comprehension_complete; [exact Hl| |exact Ha].
  apply list_elem_of_filter. split; [|done]. by apply admitted_matches.
Qed.

(** ** More on seeding *)

Lemma seed_defaults_steps (st : Database) :
  seed_defaults (Some st)
  = (seed_collection Service.new "service" defaults ;;
     seed_collection Barber.new "barber" barbers) (Some st).
Proof. reflexivity. Qed.

Lemma seed_loop_inv {A : Type} `{BaseModel A} (new : document → result A)
    (name : string) (docs : list document) (P : document → Prop)
    (st : Database) :
  Forall (λ d, ∃ model, new d = Ok model) docs →
  (∀ model oid, P (<["_id" := VOid oid]> (model_dump model))) →
  ∃ st',
    for_each docs (seed_one new name) (Some st) = (Ok tt, Some st')
    ∧ length (coll st' name) = (length (coll st name) + length docs)%nat
    ∧ (Forall P (coll st name) → Forall P (coll st' name))
    ∧ ∀ other, other ≠ name → coll st' other = coll st other.
Proof.
  intros Hvalid HP. revert st.
  induction Hvalid as [|d docs [model Hd] _ IH]; intros st.
  - exists st. repeat split; [simpl; lia|done].
  - destruct (IH (inserted name (model_dump model) st))
      as (st' & Hrun & Hlen & Hkeep & Hother).
    exists st'. split; [|split; [|split]].
    + cbn [for_each]. run_bind. unfold seed_one at 1. run_bind.
      unfold lift. rewrite Hd. run_bind. rewrite create_document_run.
      run_ret. exact Hrun.
    + rewrite Hlen, coll_inserted, length_app. simpl. lia.
    + intros Hold. apply Hkeep. rewrite coll_inserted.
      apply Forall_app. split; [done|]. constructor; [apply HP|constructor].
    + intros other Hne. rewrite Hother by done. by apply coll_inserted_ne.
Qed.

Lemma seed_collection_run {A : Type} `{BaseModel A}
    (new : document → result A) (name : string) (docs : list document)
    (P : document → Prop) (st : Database) :
  Forall (λ d, ∃ model, new d = Ok model) docs →
  (∀ model oid, P (<["_id" := VOid oid]> (model_dump model))) →
  ∃ st',
    seed_collection new name docs (Some st) = (Ok tt, Some st')
    ∧ (coll st name = [] → length (coll st' name) = length docs)
    ∧ (coll st name ≠ [] → st' = record (CountDocuments name ∅) st)
    ∧ (Forall P (coll st name) → Forall P (coll st' name))
    ∧ ∀ other, other ≠ name → coll st' other = coll st other.
Proof.
  intros Hvalid HP. unfold seed_collection. run_bind. rewrite count_all.
  destruct (coll st name) as [|d0 l0] eqn:Hcoll.
  - rewrite bool_decide_eq_true_2 by done.
    destruct (seed_loop_inv new name docs P
                (record (CountDocuments name ∅) st) Hvalid HP)
      as (st' & Hrun & Hlen & Hkeep & Hother).
    exists st'. rewrite coll_record, Hcoll in Hlen, Hkeep.
    split_and!; [exact Hrun|by intros _|done| |exact Hother].
    intros _. apply Hkeep. constructor.
  - rewrite bool_decide_eq_false_2 by done.
    exists (record (CountDocuments name ∅) st).
    split_and!; [reflexivity|done|done| |done].
    by rewrite coll_record, Hcoll.
Qed.

Lemma seed_defaults_run (P Q : document → Prop) (st : Database) :
  (∀ (model : Service.t) oid,
     P (<["_id" := VOid oid]> (model_dump model))) →
  (∀ (model : Barber.t) oid,
     Q (<["_id" := VOid oid]> (model_dump model))) →
  ∃ st1,
    seed_defaults (Some st) = (Ok tt, Some st1)
    ∧ (coll st "service" = [] → length (coll st1 "service") = 4%nat)
    ∧ (coll st "service" ≠ [] → coll st1 "service" = coll st "service")
    ∧ (coll st "barber" = [] → length (coll st1 "barber") = 3%nat)
    ∧ (coll st "barber" ≠ [] → coll st1 "barber" = coll st "barber")
    ∧ (Forall P (coll st "service") → Forall P (coll st1 "service"))
    ∧ (Forall Q (coll st "barber") → Forall Q (coll st1 "barber"))
    ∧ (coll st "service" ≠ [] → coll st "barber" ≠ [] →
       collections st1 = collections st ∧ oid_issued st1 = oid_issued st)
    ∧ ∀ name, name ≠ "service" → name ≠ "barber" →
              coll st1 name = coll st name.
Proof.
  intros HP HQ.
  destruct (seed_collection_run Service.new "service" defaults P st
              defaults_valid HP)
    as (sta & Hruna & Hlena & Hsamea & Hkeepa & Hothera).
  destruct (seed_collection_run Barber.new "barber" barbers Q sta
              barbers_valid HQ)
    as (stb & Hrunb & Hlenb & Hsameb & Hkeepb & Hotherb).
  exists stb. rewrite seed_defaults_steps. run_bind. rewrite Hruna.
  split; [exact Hrunb|].
  rewrite (Hotherb "service") by done. rewrite (Hothera "barber") in * by done.
  split_and!.
  - exact Hlena.
  - intros Hs. by rewrite (Hsamea Hs).
  - exact Hlenb.
  - intros Hb. by rewrite (Hsameb Hb), coll_record, (Hothera "barber").
  - exact Hkeepa.
  - exact Hkeepb.
  - intros Hs Hb. by rewrite (Hsameb Hb), (Hsamea Hs).
  - intros name Hs Hb. rewrite Hotherb, Hothera; done.
Qed.

(** X16. [seed_defaults] never raises, and running it a second time changes
    nothing, whatever the handle and whatever the collections hold: each
    collection is seeded only while it is empty. *)
Theorem seed_defaults_twice (db : option Database) :
  ∃ db1 db2,
    seed_defaults db = (Ok tt, db1)
    ∧ seed_defaults db1 = (Ok tt, db2)
    ∧ same_data db1 db2.
Proof.
  destruct db as [st|]; [|by exists None, None].
  destruct (seed_defaults_run (λ _, True) (λ _, True) st)
    as (st1 & Hrun & Hs4 & Hs & Hb3 & Hb & _); [done|done|].
  assert (coll st1 "service" ≠ []) as Hs1.
  { destruct (coll st "service") eqn:Hc;
      [by destruct (coll st1 "service"); [specialize (Hs4 eq_refl)|]
      |by rewrite Hs]. }
  assert (coll st1 "barber" ≠ []) as Hb1.
  { destruct (coll st "barber") eqn:Hc;
      [by destruct (coll st1 "barber"); [specialize (Hb3 eq_refl)|]
      |by rewrite Hb]. }
  exists (Some st1). eexists. split; [exact Hrun|].
  rewrite (seed_defaults_nonempty st1 Hs1 Hb1). by split.
Qed.

(** X17. The two collections are seeded independently.  A collection that
    already holds a document is left as it is, an empty one receives its
    defaults (4 services, 3 barbers), and no other collection is touched. *)
Theorem seed_defaults_per_collection (st : Database) :
  ∃ st1,
    seed_defaults (Some st) = (Ok tt, Some st1)
    ∧ (coll st "service" = [] → length (coll st1 "service") = 4%nat)
    ∧ (coll st "service" ≠ [] → coll st1 "service" = coll st "service")
    ∧ (coll st "barber" = [] → length (coll st1 "barber") = 3%nat)
    ∧ (coll st "barber" ≠ [] → coll st1 "barber" = coll st "barber")
    ∧ ∀ name, name ≠ "service" → name ≠ "barber" →
              coll st1 name = coll st name.
Proof.
  destruct (seed_defaults_run (λ _, True) (λ _, True) st)
    as (st1 & Hrun & Hs4 & Hs & Hb3 & Hb & _ & _ & _ & Hother);
    [done|done|].
  by exists st1.
Qed.

(** X18. Seeding never breaks the list endpoints: if the services and
    barbers already stored serialise to response records, then after
    [seed_defaults] both [list_services] and [list_barbers] succeed and
    return one record per stored document. *)
Theorem seed_defaults_keeps_lists_working (st : Database) :
  Forall (λ d, ∃ o, present_service d = Ok o) (coll st "service") →
  Forall (λ d, ∃ o, present_barber d = Ok o) (coll st "barber") →
  ∃ st1 services barbers,
    seed_defaults (Some st) = (Ok tt, Some st1)
    ∧ fst (list_services (Some st1)) = Ok services
    ∧ length services = length (coll st1 "service")
    ∧ fst (list_barbers (Some st1)) = Ok barbers
    ∧ length barbers = length (coll st1 "barber").
Proof.
  intros Hs Hb.
  destruct (seed_defaults_run
              (λ d, ∃ o, present_service d = Ok o)
              (λ d, ∃ o, present_barber d = Ok o) st)
    as (st1 & Hrun & _ & _ & _ & _ & Hs1 & Hb1 & _).
  { intros model oid. eexists. apply present_service_stored. }
  { intros model oid. eexists. apply present_barber_stored. }
  destruct (comprehension_total _ _ (Hs1 Hs)) as [services Hservices].
  destruct (comprehension_total _ _ (Hb1 Hb)) as [bs Hbs].
  exists st1, services, bs. split; [exact Hrun|].
  change (fst (list_services (Some st1)))
    with (comprehension present_service
            (filter (matches ∅) (coll st1 "service"))).
  change (fst (list_barbers (Some st1)))
    with (comprehension present_barber
            (filter (matches ∅) (coll st1 "barber"))).
  rewrite !filter_matches_empty.
  apply comprehension_Ok_inv in Hservices as Hls.
  apply comprehension_Ok_inv in Hbs as Hlb.
  by destruct Hls as [_ ->], Hlb as [_ ->].
Qed.

(** ** [schemas.Service] *)

(** X19. Validation enforces the [Field] constraints of [Service]: a model
    that passed has a duration between 10 and 240 minutes and a price that
    is not negative, and a dict whose duration is an int outside that range,
    or whose price is a negative float, is refused with a ValidationError. *)
Theorem Service_new_constraints (kw : document) :
  (∀ s, Service.new kw = Ok s → Service_constraints s)
  ∧ (∀ d, kw !! "duration_minutes" = Some (VInt d) → ¬ (10 ≤ d ≤ 240) →
          Service.new kw = invalid)
  ∧ (∀ p, kw !! "price" = Some (VFloat p) → ¬ (0 <= p)%Q →
          Service.new kw = invalid).
Proof.
  split; [|split].
  - unfold Service.new, Service_constraints. intros s Hnew.
    apply bind_Ok_inv in Hnew as (n & _ & Hnew).
    apply bind_Ok_inv in Hnew as (d & _ & Hnew).
    apply bind_Ok_inv in Hnew as (p & _ & Hnew).
    apply bind_Ok_inv in Hnew as (desc & _ & Hnew).
    destruct (bool_decide (10 ≤ d ≤ 240) && Qle_bool 0 p) eqn:Hok;
      [|discriminate].
    injection Hnew as <-. simpl.
    apply andb_true_iff in Hok as [Hrange Hprice].
    apply bool_decide_eq_true in Hrange. by apply Qle_bool_iff in Hprice.
  - intros d Hd Hrange.
    unfold Service.new, required_str, required_int, required_float,
      optional_str, invalid. rewrite Hd.
    destruct (kw !! "name") as [[]|]; try done.
    destruct (kw !! "price") as [[]|]; try done;
      (destruct (kw !! "description") as [[]|]; try done); simpl;
      by rewrite bool_decide_eq_false_2.
  - intros p Hp Hneg.
    assert (Qle_bool 0 p = false) as Hfalse.
    { destruct (Qle_bool 0 p) eqn:Hle; [|done].
      by apply Qle_bool_iff in Hle. }
    unfold Service.new, required_str, required_int, required_float,
      optional_str, invalid. rewrite Hp.
    destruct (kw !! "name") as [[]|]; try done.
    destruct (kw !! "duration_minutes") as [[]|]; try done.
    destruct (kw !! "description") as [[]|]; try done; simpl;
      by rewrite Hfalse, andb_false_r.
Qed.

(** X20. Dumping a [Service] and validating the dict again gives the model
    back exactly when the model satisfies the field constraints; otherwise
    validation fails. *)
Theorem Service_dump_new (s : Service.t) :
  (Service_constraints s → Service.new (model_dump s) = Ok s)
  ∧ (¬ Service_constraints s → Service.new (model_dump s) = invalid).
Proof.
  unfold Service_constraints.
  destruct s as [n d p desc]. cbn [Service.duration_minutes Service.price].
  assert (Hnew : Service.new (model_dump (Service.Build n d p desc))
                 = if bool_decide (10 ≤ d ≤ 240) && Qle_bool 0 p
                   then Ok (Service.Build n d p desc) else invalid)
    by by destruct desc.
  rewrite Hnew. split.
  - intros [Hrange Hprice].
    rewrite bool_decide_eq_true_2 by done.
    apply Qle_bool_iff in Hprice. by rewrite Hprice.
  - intros Hno.
    destruct (bool_decide (10 ≤ d ≤ 240) && Qle_bool 0 p) eqn:Hok; [|done].
    apply andb_true_iff in Hok as [Hrange Hprice]. destruct Hno.
    apply bool_decide_eq_true in Hrange. by apply Qle_bool_iff in Hprice.
Qed.

(** ** [test_database] *)

Section Report.

Variable handle_name : Database → result (option string).
Variable list_collection_names : Database → result (list string).
Variable brief : exn → string.

Local Abbreviation report :=
  (test_database handle_name list_collection_names brief).
Local Abbreviation names := (listed handle_name list_collection_names).

Lemma env_mark (environ : gmap string string) (k a b : string) :
  match truthy (environ !! k) with Some _ => a | None => b end
  = if is_set environ k then a else b.
Proof.
  unfold truthy, is_set. destruct (environ !! k) as [v|]; [|done].
  case_bool_decide as Hv; [by subst v|].
  by rewrite (proj2 (String.eqb_neq v "")).
Qed.

(** X21. The [database_url] and [database_name] fields of the diagnostic
    report say only whether the environment variables DATABASE_URL and
    DATABASE_NAME are set to a non-empty value.  Whatever the handle is, its
    name and the "Configured" mark never reach the report. *)
Theorem test_database_reports_environment
    (environ : gmap string string) (db : option Database) :
  report environ db !! "database_url"
  = Some (VStr (if is_set environ "DATABASE_URL"
                then "✅ Set" else "❌ Not Set"))
  ∧ report environ db !! "database_name"
    = Some (VStr (if is_set environ "DATABASE_NAME"
                  then "✅ Set" else "❌ Not Set")).
Proof.
  unfold test_database. rewrite !env_mark. split.
  - rewrite lookup_insert_ne by done. by rewrite lookup_insert_eq.
  - by rewrite lookup_insert_eq.
Qed.

(** X22. The report lists at most ten collections: the first ten names the
    handle returns, and none when there is no handle or reading it fails. *)
Theorem test_database_collections
    (environ : gmap string string) (db : option Database) :
  report environ db !! "collections"
  = Some (VList (take 10 (names db)))
  ∧ (length (take 10 (names db)) ≤ 10)%nat.
Proof.
  split; [|rewrite length_take; lia].
  unfold test_database, listed.
  rewrite !lookup_insert_ne by done.
  destruct db as [st|]; [|done].
  destruct (handle_name st) as [name|e]; [|done].
  by destruct (list_collection_names st) as [names|e].
Qed.

(** X23. The report always has the same six fields, its [backend] field is
    always the running mark, and its [database] field is never one of the
    two values it is first given: every path overwrites them.  Without a
    handle the connection is reported as not connected. *)
Theorem test_database_shape
    (environ : gmap string string) (db : option Database) :
  dom (report environ db)
  = ({[ "backend"; "database"; "database_url"; "database_name";
        "connection_status"; "collections" ]} : gset string)
  ∧ report environ db !! "backend" = Some (VStr "✅ Running")
  ∧ report environ db !! "database"
    ≠ Some (VStr "❌ Not Available")
  ∧ report environ db !! "database" ≠ Some (VStr "✅ Available")
  ∧ report environ None !! "connection_status"
    = Some (VStr "Not Connected").
Proof.
  unfold test_database.
  destruct db as [st|];
    [destruct (handle_name st) as [name|e];
     [destruct (list_collection_names st) as [names|e]|]|];
    (split_and!;
     [rewrite !dom_insert_L; set_solver|done|..|done]);
    rewrite !lookup_insert_ne by done;
    rewrite ?lookup_insert_eq; simpl; try done; intros [=].
Qed.

End Report.

End Handlers.

(** ** The theorems at work on the sample shop *)

Lemma rejects_dangling_service_at_shop :
  dangling shop "service" (Appointment.service_id stranger)
  ∧ ∃ st',
      create_appointment sample_str stranger (Some shop)
      = (Raise (HTTPException 400 "Invalid service_id"), Some st')
      ∧ collections st' = collections shop
      ∧ coll st' "appointment" = coll shop "appointment".
Proof.
  assert (H : dangling shop "service" (Appointment.service_id stranger))
    by compute_done.
  split; [exact H|].
  exact (create_appointment_rejects_dangling_service sample_str shop
           stranger H).
Defined.

Lemma conflict_iff_slot_taken_at_booked_shop :
  references booked_shop "service" (Appointment.service_id booking)
  ∧ references booked_shop "barber" (Appointment.barber_id booking)
  ∧ (fst (create_appointment sample_str booking (Some booked_shop))
     = Raise (HTTPException 409 "Time slot already booked for this barber")
     ↔ (0 < bookings booked_shop booking)%nat)
  ∧ (fst (create_appointment sample_str booking (Some booked_shop))
     = Raise (HTTPException 409 "Time slot already booked for this barber")
     → ∃ st',
         snd (create_appointment sample_str booking (Some booked_shop))
         = Some st'
         ∧ collections st' = collections booked_shop
         ∧ coll st' "appointment" = coll booked_shop "appointment").
Proof.
  assert (Hs : references booked_shop "service"
                 (Appointment.service_id booking)) by compute_done.
  assert (Hb : references booked_shop "barber"
                 (Appointment.barber_id booking)) by compute_done.
  split; [exact Hs|]. split; [exact Hb|].
  exact (create_appointment_conflict_iff_slot_taken sample_str booked_shop
           booking Hs Hb).
Defined.

Lemma posts_preserve_I3_at_booked_shop :
  I3 (coll booked_shop "appointment")
  ∧ ∃ st',
      post_all sample_str [booking; lost; booking] (Some booked_shop)
      = Some st'
      ∧ I3 (coll st' "appointment").
Proof.
  assert (H : I3 (coll booked_shop "appointment")) by compute_done.
  split; [exact H|].
  exact (sequential_posts_preserve_I3 sample_str [booking; lost; booking]
           booked_shop H).
Defined.

Lemma two_path_lookup_at_shop :
  Appointment.service_id stranger = "000000000000000000000000"
  ∧ ¬ has_id shop "service"
        (VOid (ObjectId.Oid (replicate 12 Byte.x00)))
  ∧ ∃ st',
      create_appointment sample_str stranger (Some shop)
      = (Raise (HTTPException 400 "Invalid service_id"), Some st')
      ∧ coll st' "appointment" = coll shop "appointment".
Proof.
  assert (H : ¬ has_id shop "service"
                  (VOid (ObjectId.Oid (replicate 12 Byte.x00)))) by compute_done.
  split; [reflexivity|]. split; [exact H|].
  exact (proj2 (proj2 (proj2 (proj2
           (create_appointment_two_path_lookup sample_str shop stranger))))
           eq_refl H).
Defined.

Lemma reports_service_first_at_shop :
  ¬ references shop "service" (Appointment.service_id lost)
  ∧ ¬ references shop "barber" (Appointment.barber_id lost)
  ∧ fst (create_appointment sample_str lost (Some shop))
    = Raise (HTTPException 400 "Invalid service_id").
Proof.
  assert (Hs : ¬ references shop "service" (Appointment.service_id lost))
    by compute_done.
  assert (Hb : ¬ references shop "barber" (Appointment.barber_id lost))
    by compute_done.
  split; [exact Hs|]. split; [exact Hb|].
  exact (proj1 (proj2
           (create_appointment_reports_service_first sample_str shop lost))
           Hs Hb).
Defined.

(** C5 as stated fails: with both references dangling, the journal of the
    call on the sample shop still holds a lookup on the barber collection. *)
Lemma barber_lookup_is_performed : ¬ short_circuits sample_str shop lost.
Proof.
  intros Hclaim.
  assert (Hs : ¬ references shop "service" (Appointment.service_id lost))
    by compute_done.
  assert (Hb : ¬ references shop "barber" (Appointment.barber_id lost))
    by compute_done.
  destruct (Hclaim Hs Hb) as [_ Hskip].
  specialize (Hskip (looked_up lost shop) eq_refl).
  apply Forall_cons in Hskip as [_ Hskip].
  apply Forall_cons in Hskip as [Hbarber _].
  by apply Hbarber.
Qed.

Lemma accept_path_at_shop :
  references shop "service" (Appointment.service_id booking)
  ∧ references shop "barber" (Appointment.barber_id booking)
  ∧ bookings shop booking = 0%nat
  ∧ fresh shop "appointment"
  ∧ ∃ st',
      create_appointment sample_str booking (Some shop)
      = (Ok (created (next_oid shop) booking), Some st')
      ∧ coll st' "appointment"
        = coll shop "appointment"
          ++ [<["_id" := VOid (next_oid shop)]> (model_dump booking)]
      ∧ issued shop st'
        = [ CountDocuments "service"
              {[ "_id" := parse_id (Appointment.service_id booking) ]};
            CountDocuments "barber"
              {[ "_id" := parse_id (Appointment.barber_id booking) ]};
            CountDocuments "appointment" (slot_query booking);
            InsertOne "appointment" (model_dump booking);
            FindOne "appointment"
              {[ "_id" := parse_id (ObjectId.str (next_oid shop)) ]} ]
      ∧ head (filter (matches
                        {[ "_id" := parse_id (ObjectId.str (next_oid shop)) ]})
                (coll st' "appointment"))
        = Some (<["_id" := VOid (next_oid shop)]> (model_dump booking))
      ∧ kwargs (serialize_doc sample_str
                  (Some (<["_id" := VOid (next_oid shop)]>
                           (model_dump booking))))
          ≫= AppointmentOut.new
        = Ok (created (next_oid shop) booking).
Proof.
  assert (Hs : references shop "service" (Appointment.service_id booking))
    by compute_done.
  assert (Hb : references shop "barber" (Appointment.barber_id booking))
    by compute_done.
  assert (Hfree : bookings shop booking = 0%nat) by reflexivity.
  assert (Hfresh : fresh shop "appointment") by compute_done.
  repeat (split; [assumption|]).
  exact (create_appointment_accept_path sample_str shop booking
           Hs Hb Hfree Hfresh).
Defined.

Lemma seed_defaults_at_empty_shop :
  coll empty_shop "service" = []
  ∧ coll empty_shop "barber" = []
  ∧ ∃ st1 st2,
      seed_defaults (Some empty_shop) = (Ok tt, Some st1)
      ∧ length (coll st1 "service") = 4%nat
      ∧ length (coll st1 "barber") = 3%nat
      ∧ seed_defaults (Some st1) = (Ok tt, Some st2)
      ∧ collections st2 = collections st1.
Proof.
  split; [reflexivity|]. split; [reflexivity|].
  exact (seed_defaults_idempotent empty_shop eq_refl eq_refl).
Defined.



(** ** The further properties at work on the sample shop *)

Lemma serialize_doc_renames_id_at_tagged :
  tagged !! "_id" = Some (VOid (sample_oid 7))
  ∧ ∃ d', serialize_doc sample_str (Some tagged) = Some d'
          ∧ d' !! "id" = Some (VStr (py_str sample_str (VOid (sample_oid 7)))).
Proof.
  split; [reflexivity|].
  exact (serialize_doc_renames_id sample_str tagged (VOid (sample_oid 7))
           eq_refl).
Defined.

Lemma serialize_doc_keeps_fields_at_tagged :
  "owner" ≠ "_id"
  ∧ ("owner" ≠ "id" ∨ tagged !! "_id" = None)
  ∧ ∃ d', serialize_doc sample_str (Some tagged) = Some d'
          ∧ d' !! "owner" = stringify <$> tagged !! "owner".
Proof.
  assert (H1 : "owner" ≠ "_id") by discriminate.
  assert (H2 : "owner" ≠ "id" ∨ tagged !! "_id" = None)
    by (left; discriminate).
  split; [exact H1|]. split; [exact H2|].
  exact (serialize_doc_keeps_fields sample_str tagged "owner" H1 H2).
Defined.

Lemma create_appointment_outcomes_at_shop :
  fresh shop "appointment"
  ∧ (fst (create_appointment sample_str booking (Some shop))
     = Raise (HTTPException 400 "Invalid service_id")
     ∨ fst (create_appointment sample_str booking (Some shop))
       = Raise (HTTPException 400 "Invalid barber_id")
     ∨ fst (create_appointment sample_str booking (Some shop))
       = Raise (HTTPException 409 "Time slot already booked for this barber")
     ∨ fst (create_appointment sample_str booking (Some shop))
       = Ok (created (next_oid shop) booking)).
Proof.
  assert (H : fresh shop "appointment") by compute_done.
  split; [exact H|].
  exact (create_appointment_outcomes sample_str shop booking H).
Defined.

Lemma rejection_writes_nothing_at_shop :
  fst (create_appointment sample_str lost (Some shop))
  = Raise (HTTPException 400 "Invalid service_id")
  ∧ ∃ st', snd (create_appointment sample_str lost (Some shop)) = Some st'
           ∧ collections st' = collections shop
           ∧ oid_issued st' = oid_issued shop.
Proof.
  assert (H : fst (create_appointment sample_str lost (Some shop))
              = Raise (HTTPException 400 "Invalid service_id"))
    by reflexivity.
  split; [exact H|].
  exact (create_appointment_rejection_writes_nothing sample_str shop lost
           400 "Invalid service_id" H).
Defined.

Lemma accepted_slot_is_blocked_at_shop :
  create_appointment sample_str booking (Some shop)
  = (Ok (created (sample_oid 2) booking), Some booked_shop)
  ∧ references booked_shop "service" (Appointment.service_id rebooking)
  ∧ ∃ st'',
      create_appointment sample_str rebooking (Some booked_shop)
      = (Raise (HTTPException 409 "Time slot already booked for this barber"),
         Some st'')
      ∧ collections st'' = collections booked_shop.
Proof.
  assert (Hrun : create_appointment sample_str booking (Some shop)
                 = (Ok (created (sample_oid 2) booking), Some booked_shop))
    by (vm_compute; reflexivity).
  assert (Hs : references booked_shop "service"
                 (Appointment.service_id rebooking)) by compute_done.
  split; [exact Hrun|]. split; [exact Hs|].
  exact (accepted_slot_is_blocked sample_str shop booked_shop booking
           rebooking (created (sample_oid 2) booking) Hrun
           eq_refl eq_refl eq_refl Hs).
Defined.

Lemma leaves_other_slots_at_shop :
  ¬ (Appointment.barber_id later = Appointment.barber_id booking
     ∧ Appointment.date later = Appointment.date booking
     ∧ Appointment.time later = Appointment.time booking)
  ∧ ∃ st', snd (create_appointment sample_str booking (Some shop)) = Some st'
           ∧ bookings st' later = bookings shop later.
Proof.
  assert (H : ¬ (Appointment.barber_id later = Appointment.barber_id booking
                 ∧ Appointment.date later = Appointment.date booking
                 ∧ Appointment.time later = Appointment.time booking))
    by (intros (_ & _ & Ht); discriminate).
  split; [exact H|].
  exact (create_appointment_leaves_other_slots sample_str shop booking
           later H).
Defined.

Lemma respelled_barber_at_shop :
  create_appointment sample_str booking (Some shop)
  = (Ok (created (sample_oid 2) booking), Some booked_shop)
  ∧ Appointment.barber_id respelled ≠ Appointment.barber_id booking
  ∧ parse_id (Appointment.barber_id respelled)
    = parse_id (Appointment.barber_id booking)
  ∧ Appointment.date respelled = Appointment.date booking
  ∧ Appointment.time respelled = Appointment.time booking
  ∧ ∃ st'',
      create_appointment sample_str respelled (Some booked_shop)
      = (Ok (created (next_oid booked_shop) respelled), Some st'')
      ∧ coll st'' "appointment"
        = coll shop "appointment"
          ++ [stored_doc booking shop; stored_doc respelled booked_shop].
Proof.
  assert (Hrun : create_appointment sample_str booking (Some shop)
                 = (Ok (created (sample_oid 2) booking), Some booked_shop))
    by (vm_compute; reflexivity).
  assert (Hne : Appointment.barber_id respelled
                ≠ Appointment.barber_id booking) by discriminate.
  assert (Hsame : parse_id (Appointment.barber_id respelled)
                  = parse_id (Appointment.barber_id booking))
    by (vm_compute; reflexivity).
  assert (Hs : references shop "service" (Appointment.service_id respelled))
    by compute_done.
  assert (Hfree : bookings shop respelled = 0%nat) by reflexivity.
  assert (Hfresh : fresh booked_shop "appointment") by compute_done.
  split; [exact Hrun|]. split; [exact Hne|]. split; [exact Hsame|].
  split; [reflexivity|]. split; [reflexivity|].
  exact (respelled_barber_is_not_in_conflict sample_str shop booked_shop
           booking respelled (created (sample_oid 2) booking)
           Hrun Hne Hsame Hs Hfree Hfresh).
Defined.

Lemma list_appointments_sound_at_booked_shop :
  list_appointments sample_str (Some "2024-06-01")
    (Some "654f00000000000000000001") (Some booked_shop)
  = (Ok [created (sample_oid 2) booking],
     Some (record (Find "appointment"
                     (appointment_query (Some "2024-06-01")
                        (Some "654f00000000000000000001")))
             booked_shop))
  ∧ created (sample_oid 2) booking ∈ [created (sample_oid 2) booking]
  ∧ (∀ b, Some "654f00000000000000000001" = Some b → b ≠ "" →
          AppointmentOut.barber_id (created (sample_oid 2) booking) = b)
  ∧ (∀ d, Some "2024-06-01" = Some d → d ≠ "" →
          AppointmentOut.date (created (sample_oid 2) booking) = d).
Proof.
  assert (Hrun : list_appointments sample_str (Some "2024-06-01")
                   (Some "654f00000000000000000001") (Some booked_shop)
                 = (Ok [created (sample_oid 2) booking],
                    Some (record (Find "appointment"
                                    (appointment_query (Some "2024-06-01")
                                       (Some "654f00000000000000000001")))
                            booked_shop)))
    by (vm_compute; reflexivity).
  assert (Hin : created (sample_oid 2) booking
                ∈ [created (sample_oid 2) booking]) by left.
  split; [exact Hrun|]. split; [exact Hin|].
  exact (list_appointments_sound sample_str booked_shop
           (Some "2024-06-01") (Some "654f00000000000000000001")
           _ _ _ Hrun Hin).
Defined.

Lemma list_appointments_succeeds_at_booked_shop :
  Forall (presentable sample_str)
    (filter (matches (appointment_query None None))
       (coll booked_shop "appointment"))
  ∧ ∃ l, fst (list_appointments sample_str None None (Some booked_shop))
         = Ok l.
Proof.
  assert (H : Forall (presentable sample_str)
                (filter (matches (appointment_query None None))
                   (coll booked_shop "appointment"))) by compute_done.
  split; [exact H|].
  exact (proj2 (proj1 (list_appointments_succeeds_iff sample_str booked_shop
                         None None)) H).
Defined.



Lemma seed_defaults_per_collection_at_barberless_shop :
  coll barberless_shop "service" ≠ []
  ∧ coll barberless_shop "barber" = []
  ∧ ∃ st1,
      seed_defaults (Some barberless_shop) = (Ok tt, Some st1)
      ∧ coll st1 "service" = coll barberless_shop "service"
      ∧ length (coll st1 "barber") = 3%nat.
Proof.
  assert (Hs : coll barberless_shop "service" ≠ []) by discriminate.
  assert (Hb : coll barberless_shop "barber" = []) by reflexivity.
  split; [exact Hs|]. split; [exact Hb|].
  destruct (seed_defaults_per_collection barberless_shop)
    as (st1 & Hrun & _ & Hkeep & Hseed & _).
  exists st1. split; [exact Hrun|]. split; [exact (Hkeep Hs)|exact (Hseed Hb)].
Defined.

Lemma seed_defaults_keeps_lists_working_at_barberless_shop :
  Forall (λ d, ∃ o, present_service sample_str d = Ok o)
    (coll barberless_shop "service")
  ∧ Forall (λ d, ∃ o, present_barber sample_str d = Ok o)
      (coll barberless_shop "barber")
  ∧ ∃ st1 services barbers,
      seed_defaults (Some barberless_shop) = (Ok tt, Some st1)
      ∧ fst (list_services sample_str (Some st1)) = Ok services
      ∧ length services = length (coll st1 "service")
      ∧ fst (list_barbers sample_str (Some st1)) = Ok barbers
      ∧ length barbers = length (coll st1 "barber").
Proof.
  assert (Hs : Forall (λ d, ∃ o, present_service sample_str d = Ok o)
                 (coll barberless_shop "service"))
    by (repeat constructor; eexists; vm_compute; reflexivity).
  assert (Hb : Forall (λ d, ∃ o, present_barber sample_str d = Ok o)
                 (coll barberless_shop "barber")) by constructor.
  split; [exact Hs|]. split; [exact Hb|].
  exact (seed_defaults_keeps_lists_working sample_str barberless_shop Hs Hb).
Defined.

Lemma Service_new_constraints_at_too_short :
  too_short !! "duration_minutes" = Some (VInt 5)
  ∧ ¬ (10 ≤ 5 ≤ 240)
  ∧ Service.new too_short = invalid.
Proof.
  assert (Hd : too_short !! "duration_minutes" = Some (VInt 5))
    by reflexivity.
  assert (Hrange : ¬ (10 ≤ 5 ≤ 240)) by lia.
  split; [exact Hd|]. split; [exact Hrange|].
  exact (proj1 (proj2 (Service_new_constraints too_short)) 5 Hd Hrange).
Defined.

Lemma Service_dump_new_at_shave :
  Service_constraints shave ∧ Service.new (model_dump shave) = Ok shave.
Proof.
  assert (H : Service_constraints shave)
    by (unfold Service_constraints; simpl; split; [lia|discriminate]).
  split; [exact H|].
  exact (proj1 (Service_dump_new shave) H).
Defined.

Lemma list_appointments_complete_at_booked_shop :
  list_appointments sample_str None (Some "") (Some booked_shop)
  = (Ok [created (sample_oid 2) booking],
     Some (record (Find "appointment" (appointment_query None (Some "")))
             booked_shop))
  ∧ stored_doc booking shop ∈ coll booked_shop "appointment"
  ∧ admits None (stored_doc booking shop !! "date")
  ∧ admits (Some "") (stored_doc booking shop !! "barber_id")
  ∧ present sample_str (stored_doc booking shop)
    = Ok (created (sample_oid 2) booking)
  ∧ created (sample_oid 2) booking ∈ [created (sample_oid 2) booking].
Proof.
  assert (Hrun : list_appointments sample_str None (Some "")
                   (Some booked_shop)
                 = (Ok [created (sample_oid 2) booking],
                    Some (record (Find "appointment"
                                    (appointment_query None (Some "")))
                            booked_shop)))
    by (vm_compute; reflexivity).
  assert (Hin : stored_doc booking shop ∈ coll booked_shop "appointment")
    by (vm_compute; left).
  assert (Hd : admits None (stored_doc booking shop !! "date")) by exact I.
  assert (Hb : admits (Some "") (stored_doc booking shop !! "barber_id"))
    by (left; reflexivity).
  assert (Ha : present sample_str (stored_doc booking shop)
               = Ok (created (sample_oid 2) booking))
    by (vm_compute; reflexivity).
  repeat (split; [assumption|]).
  exact (list_appointments_complete sample_str booked_shop None (Some "")
           _ _ _ _ Hrun Hin Hd Hb Ha).
Defined.
